(** * Book Summary Generator: the entity access layer

    A shallow embedding of [src/actions/index.ts] and of the declarations
    of the tables [Books], [BookSections] and [SectionSummaries], followed
    by the properties of the nine actions of [server].

    Modelling choices.
    - A table is the list of its rows in storage order; [db.select]
      filters it, [db.insert] appends, [db.update] maps over it and
      [db.delete] filters it.  The store enforces the declared keys: an
      insert of an [id] that is already present is refused ([primaryKey]),
      so is an insert of a row whose parent is not stored and a delete of
      a row that another row refers to ([references]).  A refused
      statement changes nothing.
    - The client converts every row a statement hands back.  A stored
      number that fits the store's 64-bit integers is handed back as an
      integer, and the client throws on one outside JavaScript's safe
      range: a row whose [orderIndex] has [2^53 <= |n| < 2^63] is written
      by the statement that stores it and cannot be read afterwards.
      Larger numbers are kept as floating point and convert.
    - An optional column holds [None] for NULL; an optional input field is
      [None] when the request omits it ([undefined]).
    - [new Date()] and [crypto.randomUUID()] read the ambient runtime: the
      [n]-th reading of the clock is [clock rt n], the [n]-th identifier is
      [randomUUID rt n]; the world counts the readings made so far.
    - Every statement sent to the store is appended to [trace], so that
      "no persistence access" can be stated.
    - [defineAction] parses the request with the action's [input] schema
      and calls the handler on success only; a request the schema rejects
      fails with [VALIDATION] and the handler never runs. *)

From Stdlib Require Import String List ZArith Bool Arith Lia.
Import ListNotations.
Open Scope string_scope.
Open Scope list_scope.

(** ** Rows of the three tables *)

Module Books.
Record row := mk {
  id : string;
  userId : string;
  title : string;
  author : option string;
  sourceType : option string;
  sourceUrl : option string;
  language : option string;
  notes : option string;
  createdAt : Z;
  updatedAt : Z
}.
End Books.

Module BookSections.
Record row := mk {
  id : string;
  bookId : string;
  sectionType : option string;
  orderIndex : option Z;
  title : option string;
  rawText : string;
  createdAt : Z
}.
End BookSections.

Module SectionSummaries.
Record row := mk {
  id : string;
  sectionId : string;
  variant : option string;
  language : option string;
  summaryText : string;
  createdAt : Z
}.
End SectionSummaries.

(** ** The store and the world around a request *)

Record Store := {
  books : list Books.row;
  bookSections : list BookSections.row;
  sectionSummaries : list SectionSummaries.row
}.

Inductive TableName := TBooks | TBookSections | TSectionSummaries.

Inductive Access :=
| SELECT (t : TableName)
| INSERT (t : TableName)
| UPDATE (t : TableName)
| DELETE (t : TableName).

Definition is_write (a : Access) : bool :=
  match a with SELECT _ => false | _ => true end.

Record World := {
  db : Store;
  trace : list Access;
  ticks : nat;
  draws : nat
}.

Record Runtime := {
  clock : nat -> Z;
  randomUUID : nat -> string
}.

(** [eq(column, v)] and [and(p, q)] of the query builder. *)
Definition eq_ {R} (column : R -> string) (v : string) : R -> bool :=
  fun r => String.eqb (column r) v.

Definition and_ {R} (p q : R -> bool) : R -> bool :=
  fun r => p r && q r.

(** [Number.MAX_SAFE_INTEGER] *)
Definition MAX_SAFE_INTEGER : Z := 2 ^ 53 - 1.

(** Whether the client can hand back a stored number: below [2^63] in
    magnitude the store keeps it as an integer, which the client converts
    only inside the safe range; from [2^63] on it is kept as a float. *)
Definition converts (n : Z) : bool :=
  (Z.abs n <=? MAX_SAFE_INTEGER)%Z || (2 ^ 63 <=? Z.abs n)%Z.

(** The only numeric column is [orderIndex]; NULL converts. *)
Definition readable_section (s : BookSections.row) : bool :=
  match BookSections.orderIndex s with
  | Some n => converts n
  | None => true
  end.
Arguments converts : simpl never.
Arguments readable_section : simpl never.

(** A table as the query builder sees it: where its rows live in the
    store, which column is the primary key, which rows the client can
    hand back, whether the rows a row [references] are stored, and whether
    a stored row [references] this one. *)
Record Table (R : Type) := {
  name : TableName;
  rows : Store -> list R;
  with_rows : list R -> Store -> Store;
  pk : R -> string;
  readable : R -> bool;
  parent_stored : R -> Store -> bool;
  referenced : R -> Store -> bool
}.
Arguments name {R} _.
Arguments rows {R} _ _.
Arguments with_rows {R} _ _ _.
Arguments pk {R} _ _.
Arguments readable {R} _ _.
Arguments parent_stored {R} _ _ _.
Arguments referenced {R} _ _ _.

Definition Books : Table Books.row := {|
  name := TBooks;
  rows := books;
  with_rows := fun l st =>
    {| books := l; bookSections := bookSections st;
       sectionSummaries := sectionSummaries st |};
  pk := Books.id;
  readable := fun _ => true;
  parent_stored := fun _ _ => true;
  referenced := fun b st =>
    existsb (eq_ BookSections.bookId (Books.id b)) (bookSections st)
|}.

Definition BookSections : Table BookSections.row := {|
  name := TBookSections;
  rows := bookSections;
  with_rows := fun l st =>
    {| books := books st; bookSections := l;
       sectionSummaries := sectionSummaries st |};
  pk := BookSections.id;
  readable := readable_section;
  parent_stored := fun s st =>
    existsb (eq_ Books.id (BookSections.bookId s)) (books st);
  referenced := fun s st =>
    existsb (eq_ SectionSummaries.sectionId (BookSections.id s))
            (sectionSummaries st)
|}.

Definition SectionSummaries : Table SectionSummaries.row := {|
  name := TSectionSummaries;
  rows := sectionSummaries;
  with_rows := fun l st =>
    {| books := books st; bookSections := bookSections st;
       sectionSummaries := l |};
  pk := SectionSummaries.id;
  readable := fun _ => true;
  parent_stored := fun y st =>
    existsb (eq_ BookSections.id (SectionSummaries.sectionId y))
            (bookSections st);
  referenced := fun _ _ => false
|}.

(** ** Failures and the monad of the handlers *)

Inductive ErrorCode := UNAUTHORIZED | NOT_FOUND.

(** [ActionError] is what the handlers throw and [VALIDATION] what
    [defineAction] answers to a request its schema rejects.  [CONSTRAINT]
    is every error the handlers do not catch: a statement the store
    refused, or a result the client could not convert. *)
Inductive Failure :=
| ActionError (code : ErrorCode) (message : string)
| VALIDATION
| CONSTRAINT.

Definition M (A : Type) : Type := Runtime -> World -> (Failure + A) * World.

Definition ret {A} (a : A) : M A := fun _ w => (inr a, w).

Definition throw {A} (e : Failure) : M A := fun _ w => (inl e, w).

Definition bind {A B} (c : M A) (k : A -> M B) : M B :=
  fun rt w =>
    match c rt w with
    | (inr a, w') => k a rt w'
    | (inl e, w') => (inl e, w')
    end.

Notation "x <- c ;; k" := (bind c (fun x => k))
  (at level 61, c at next level, right associativity).
Notation "c ;;; k" := (bind c (fun _ => k))
  (at level 61, right associativity).

Definition new_Date : M Z := fun rt w =>
  (inr (clock rt (ticks w)),
   {| db := db w; trace := trace w; ticks := S (ticks w); draws := draws w |}).

Definition crypto_randomUUID : M string := fun rt w =>
  (inr (randomUUID rt (draws w)),
   {| db := db w; trace := trace w; ticks := ticks w; draws := S (draws w) |}).

(** ** The query builder *)

Definition logged (a : Access) (st : Store) (w : World) : World :=
  {| db := st; trace := trace w ++ [a]; ticks := ticks w; draws := draws w |}.

(** The rows a statement hands back, converted by the client. *)
Definition handed_back {R} (T : Table R) (returned : list R)
  : Failure + list R :=
  if forallb (readable T) returned then inr returned else inl CONSTRAINT.

Definition db_select {R} (T : Table R) (where_ : R -> bool) : M (list R) :=
  fun _ w =>
    (handed_back T (filter where_ (rows T (db w))),
     logged (SELECT (name T)) (db w) w).

Definition db_insert {R} (T : Table R) (values : R) : M (list R) :=
  fun _ w =>
    if existsb (eq_ (pk T) (pk T values)) (rows T (db w))
    then (inl CONSTRAINT, logged (INSERT (name T)) (db w) w)
    else if parent_stored T values (db w)
    then (handed_back T [values],
          logged (INSERT (name T))
                 (with_rows T (rows T (db w) ++ [values]) (db w)) w)
    else (inl CONSTRAINT, logged (INSERT (name T)) (db w) w).

(** The handlers never assign a key column, so an update is never
    refused. *)
Definition db_update {R} (T : Table R) (set_ : R -> R) (where_ : R -> bool)
  : M (list R) :=
  fun _ w =>
    (handed_back T (map set_ (filter where_ (rows T (db w)))),
     logged (UPDATE (name T))
            (with_rows T
               (map (fun r => if where_ r then set_ r else r) (rows T (db w)))
               (db w)) w).

Definition db_delete {R} (T : Table R) (where_ : R -> bool) : M unit :=
  fun _ w =>
    if existsb (fun r => referenced T r (db w) && where_ r) (rows T (db w))
    then (inl CONSTRAINT, logged (DELETE (name T)) (db w) w)
    else (inr tt,
          logged (DELETE (name T))
                 (with_rows T
                    (filter (fun r => negb (where_ r)) (rows T (db w)))
                    (db w)) w).

(** [const [x] = rows]: the first row, [undefined] when there is none. *)
Definition first {R} (l : list R) : option R := hd_error l.

(** ** Request context *)

Module App.
Record User := { id : string }.
Record Locals := { user : option User }.
End App.

Record ActionAPIContext := { locals : option App.Locals }.

(** What a handler returns inside [{ success: true, data }]. *)
Inductive Data :=
| data_book (book : option Books.row)
| data_books (items : list Books.row) (total : nat)
| data_section (section : option BookSections.row)
| data_sections (items : list BookSections.row) (total : nat)
| data_summary (summary : option SectionSummaries.row)
| data_summaries (items : list SectionSummaries.row) (total : nat)
| no_data.

(** ** Schema combinators *)

(** [z.string().min(1)] *)
Definition min1 (s : string) : bool := Nat.leb 1 (String.length s).

(** [schema.optional()] *)
Definition optional {A} (check : A -> bool) (v : option A) : bool :=
  match v with Some a => check a | None => true end.

(** [v !== undefined] *)
Definition defined {A} (v : option A) : bool :=
  match v with Some _ => true | None => false end.

Definition defineAction {I} (input : I -> bool)
           (handler : I -> ActionAPIContext -> M Data)
  : I -> ActionAPIContext -> M Data :=
  fun i context => if input i then handler i context else throw VALIDATION.

(** [...(v !== undefined ? { column: v } : {})] on a required column *)
Definition assign {A} (v : option A) (old : A) : A :=
  match v with Some a => a | None => old end.

(** the same on an optional column *)
Definition assign_opt {A} (v : option A) (old : option A) : option A :=
  match v with Some a => Some a | None => old end.

(** ** Helpers of the handlers *)

(** [context.locals?.user] *)
Definition locals_user (context : ActionAPIContext) : option App.User :=
  match locals context with
  | Some l => App.user l
  | None => None
  end.

Definition requireUser (context : ActionAPIContext) : M App.User :=
  match locals_user context with
  | None =>
      throw (ActionError UNAUTHORIZED
                         "You must be signed in to perform this action.")
  | Some user => ret user
  end.

Definition getOwnedBook (bookId userId : string) : M Books.row :=
  found <- db_select Books
             (and_ (eq_ Books.id bookId) (eq_ Books.userId userId)) ;;
  match first found with
  | None => throw (ActionError NOT_FOUND "Book not found.")
  | Some book => ret book
  end.

Definition getOwnedSection (sectionId bookId userId : string)
  : M BookSections.row :=
  getOwnedBook bookId userId ;;;
  found <- db_select BookSections
             (and_ (eq_ BookSections.id sectionId)
                   (eq_ BookSections.bookId bookId)) ;;
  match first found with
  | None => throw (ActionError NOT_FOUND "Section not found.")
  | Some section => ret section
  end.

(** ** The nine actions of [server] *)

Module createBook.
Record input := {
  title : string;
  author : option string;
  sourceType : option string;
  sourceUrl : option string;
  language : option string;
  notes : option string
}.

Definition schema (i : input) : bool := min1 (title i).

Definition handler (i : input) (context : ActionAPIContext) : M Data :=
  user <- requireUser context ;;
  now <- new_Date ;;
  uuid <- crypto_randomUUID ;;
  inserted <- db_insert Books
    {| Books.id := uuid;
       Books.userId := App.id user;
       Books.title := title i;
       Books.author := author i;
       Books.sourceType := sourceType i;
       Books.sourceUrl := sourceUrl i;
       Books.language := language i;
       Books.notes := notes i;
       Books.createdAt := now;
       Books.updatedAt := now |} ;;
  ret (data_book (first inserted)).

Definition action := defineAction schema handler.
End createBook.

Module updateBook.
Record input := {
  id : string;
  title : option string;
  author : option string;
  sourceType : option string;
  sourceUrl : option string;
  language : option string;
  notes : option string
}.

Definition refine (i : input) : bool :=
  defined (title i) || defined (author i) || defined (sourceType i)
  || defined (sourceUrl i) || defined (language i) || defined (notes i).

Definition schema (i : input) : bool :=
  min1 (id i) && optional min1 (title i) && refine i.

Definition set_ (i : input) (updatedAt : Z) (r : Books.row) : Books.row :=
  {| Books.id := Books.id r;
     Books.userId := Books.userId r;
     Books.title := assign (title i) (Books.title r);
     Books.author := assign_opt (author i) (Books.author r);
     Books.sourceType := assign_opt (sourceType i) (Books.sourceType r);
     Books.sourceUrl := assign_opt (sourceUrl i) (Books.sourceUrl r);
     Books.language := assign_opt (language i) (Books.language r);
     Books.notes := assign_opt (notes i) (Books.notes r);
     Books.createdAt := Books.createdAt r;
     Books.updatedAt := updatedAt |}.

Definition handler (i : input) (context : ActionAPIContext) : M Data :=
  user <- requireUser context ;;
  getOwnedBook (id i) (App.id user) ;;;
  now <- new_Date ;;
  updated <- db_update Books (set_ i now) (eq_ Books.id (id i)) ;;
  ret (data_book (first updated)).

Definition action := defineAction schema handler.
End updateBook.

Module listBooks.
Definition input := unit.

Definition schema (_ : input) : bool := true.

Definition handler (_ : input) (context : ActionAPIContext) : M Data :=
  user <- requireUser context ;;
  found <- db_select Books (eq_ Books.userId (App.id user)) ;;
  ret (data_books found (List.length found)).

Definition action := defineAction schema handler.
End listBooks.

Module createBookSection.
Record input := {
  bookId : string;
  sectionType : option string;
  orderIndex : option Z;
  title : option string;
  rawText : string
}.

Definition schema (i : input) : bool := min1 (bookId i) && min1 (rawText i).

(** [input.orderIndex ?? 1] *)
Definition orderIndex_or_1 (i : input) : Z :=
  match orderIndex i with Some n => n | None => 1%Z end.

Definition handler (i : input) (context : ActionAPIContext) : M Data :=
  user <- requireUser context ;;
  getOwnedBook (bookId i) (App.id user) ;;;
  uuid <- crypto_randomUUID ;;
  now <- new_Date ;;
  inserted <- db_insert BookSections
    {| BookSections.id := uuid;
       BookSections.bookId := bookId i;
       BookSections.sectionType := sectionType i;
       BookSections.orderIndex := Some (orderIndex_or_1 i);
       BookSections.title := title i;
       BookSections.rawText := rawText i;
       BookSections.createdAt := now |} ;;
  ret (data_section (first inserted)).

Definition action := defineAction schema handler.
End createBookSection.

Module updateBookSection.
Record input := {
  id : string;
  bookId : string;
  sectionType : option string;
  orderIndex : option Z;
  title : option string;
  rawText : option string
}.

Definition refine (i : input) : bool :=
  defined (sectionType i) || defined (orderIndex i) || defined (title i)
  || defined (rawText i).

Definition schema (i : input) : bool :=
  min1 (id i) && min1 (bookId i) && refine i.

Definition set_ (i : input) (r : BookSections.row) : BookSections.row :=
  {| BookSections.id := BookSections.id r;
     BookSections.bookId := BookSections.bookId r;
     BookSections.sectionType :=
       assign_opt (sectionType i) (BookSections.sectionType r);
     BookSections.orderIndex :=
       assign_opt (orderIndex i) (BookSections.orderIndex r);
     BookSections.title := assign_opt (title i) (BookSections.title r);
     BookSections.rawText := assign (rawText i) (BookSections.rawText r);
     BookSections.createdAt := BookSections.createdAt r |}.

Definition handler (i : input) (context : ActionAPIContext) : M Data :=
  user <- requireUser context ;;
  getOwnedSection (id i) (bookId i) (App.id user) ;;;
  updated <- db_update BookSections (set_ i) (eq_ BookSections.id (id i)) ;;
  ret (data_section (first updated)).

Definition action := defineAction schema handler.
End updateBookSection.

Module deleteBookSection.
Record input := {
  id : string;
  bookId : string
}.

Definition schema (i : input) : bool := min1 (id i) && min1 (bookId i).

Definition handler (i : input) (context : ActionAPIContext) : M Data :=
  user <- requireUser context ;;
  getOwnedSection (id i) (bookId i) (App.id user) ;;;
  db_delete BookSections (eq_ BookSections.id (id i)) ;;;
  db_delete SectionSummaries (eq_ SectionSummaries.sectionId (id i)) ;;;
  ret no_data.

Definition action := defineAction schema handler.
End deleteBookSection.

Module listBookSections.
Record input := {
  bookId : string
}.

Definition schema (i : input) : bool := min1 (bookId i).

Definition handler (i : input) (context : ActionAPIContext) : M Data :=
  user <- requireUser context ;;
  getOwnedBook (bookId i) (App.id user) ;;;
  found <- db_select BookSections (eq_ BookSections.bookId (bookId i)) ;;
  ret (data_sections found (List.length found)).

Definition action := defineAction schema handler.
End listBookSections.

Module createSectionSummary.
Record input := {
  sectionId : string;
  bookId : string;
  variant : option string;
  language : option string;
  summaryText : string
}.

Definition schema (i : input) : bool :=
  min1 (sectionId i) && min1 (bookId i) && min1 (summaryText i).

Definition handler (i : input) (context : ActionAPIContext) : M Data :=
  user <- requireUser context ;;
  getOwnedSection (sectionId i) (bookId i) (App.id user) ;;;
  uuid <- crypto_randomUUID ;;
  now <- new_Date ;;
  inserted <- db_insert SectionSummaries
    {| SectionSummaries.id := uuid;
       SectionSummaries.sectionId := sectionId i;
       SectionSummaries.variant := variant i;
       SectionSummaries.language := language i;
       SectionSummaries.summaryText := summaryText i;
       SectionSummaries.createdAt := now |} ;;
  ret (data_summary (first inserted)).

Definition action := defineAction schema handler.
End createSectionSummary.

Module listSectionSummaries.
Record input := {
  sectionId : string;
  bookId : string
}.

Definition schema (i : input) : bool := min1 (sectionId i) && min1 (bookId i).

Definition handler (i : input) (context : ActionAPIContext) : M Data :=
  user <- requireUser context ;;
  getOwnedSection (sectionId i) (bookId i) (App.id user) ;;;
  found <- db_select SectionSummaries
             (eq_ SectionSummaries.sectionId (sectionId i)) ;;
  ret (data_summaries found (List.length found)).

Definition action := defineAction schema handler.
End listSectionSummaries.

(** A request names one of the actions and carries its input. *)
Inductive Request :=
| CreateBook (i : createBook.input)
| UpdateBook (i : updateBook.input)
| ListBooks (i : listBooks.input)
| CreateBookSection (i : createBookSection.input)
| UpdateBookSection (i : updateBookSection.input)
| DeleteBookSection (i : deleteBookSection.input)
| ListBookSections (i : listBookSections.input)
| CreateSectionSummary (i : createSectionSummary.input)
| ListSectionSummaries (i : listSectionSummaries.input).

Definition server (req : Request) : ActionAPIContext -> M Data :=
  match req with
  | CreateBook i => createBook.action i
  | UpdateBook i => updateBook.action i
  | ListBooks i => listBooks.action i
  | CreateBookSection i => createBookSection.action i
  | UpdateBookSection i => updateBookSection.action i
  | DeleteBookSection i => deleteBookSection.action i
  | ListBookSections i => listBookSections.action i
  | CreateSectionSummary i => createSectionSummary.action i
  | ListSectionSummaries i => listSectionSummaries.action i
  end.

Definition input_ok (req : Request) : bool :=
  match req with
  | CreateBook i => createBook.schema i
  | UpdateBook i => updateBook.schema i
  | ListBooks i => listBooks.schema i
  | CreateBookSection i => createBookSection.schema i
  | UpdateBookSection i => updateBookSection.schema i
  | DeleteBookSection i => deleteBookSection.schema i
  | ListBookSections i => listBookSections.schema i
  | CreateSectionSummary i => createSectionSummary.schema i
  | ListSectionSummaries i => listSectionSummaries.schema i
  end.

Definition handler (req : Request) : ActionAPIContext -> M Data :=
  match req with
  | CreateBook i => createBook.handler i
  | UpdateBook i => updateBook.handler i
  | ListBooks i => listBooks.handler i
  | CreateBookSection i => createBookSection.handler i
  | UpdateBookSection i => updateBookSection.handler i
  | DeleteBookSection i => deleteBookSection.handler i
  | ListBookSections i => listBookSections.handler i
  | CreateSectionSummary i => createSectionSummary.handler i
  | ListSectionSummaries i => listSectionSummaries.handler i
  end.


(** ** Vocabulary of the properties *)

Definition signed_in (u : App.User) : ActionAPIContext :=
  {| locals := Some {| App.user := Some u |} |}.

Definition unauthorized : Failure :=
  ActionError UNAUTHORIZED "You must be signed in to perform this action.".

Definition book_not_found : Failure := ActionError NOT_FOUND "Book not found.".

Definition section_not_found : Failure :=
  ActionError NOT_FOUND "Section not found.".

(** The store enforces the declared primary keys. *)
Definition primary_keys_unique (st : Store) : Prop :=
  NoDup (map Books.id (books st)) /\
  NoDup (map BookSections.id (bookSections st)) /\
  NoDup (map SectionSummaries.id (sectionSummaries st)).

Definition books_with_id (st : Store) (bookId : string) : list Books.row :=
  filter (eq_ Books.id bookId) (books st).

Definition sections_with_id (st : Store) (sectionId : string)
  : list BookSections.row :=
  filter (eq_ BookSections.id sectionId) (bookSections st).

Definition summaries_of (st : Store) (sectionId : string)
  : list SectionSummaries.row :=
  filter (eq_ SectionSummaries.sectionId sectionId) (sectionSummaries st).

(** The Books a stored Section hangs off: [Section.bookId -> Book.id]. *)
Definition books_of_section (st : Store) (sectionId : string)
  : list Books.row :=
  flat_map (fun s => books_with_id st (BookSections.bookId s))
           (sections_with_id st sectionId).

(** The Section and Summary actions, with the Books that own the entity
    the request targets: the Book named by [bookId] for the two actions
    that act on a Book's sections, the Book of the stored Section for the
    four that act on a Section or on its summaries. *)
Definition owning_books (st : Store) (req : Request)
  : option (list Books.row) :=
  match req with
  | CreateBookSection i =>
      Some (books_with_id st (createBookSection.bookId i))
  | ListBookSections i =>
      Some (books_with_id st (listBookSections.bookId i))
  | UpdateBookSection i =>
      Some (books_of_section st (updateBookSection.id i))
  | DeleteBookSection i =>
      Some (books_of_section st (deleteBookSection.id i))
  | CreateSectionSummary i =>
      Some (books_of_section st (createSectionSummary.sectionId i))
  | ListSectionSummaries i =>
      Some (books_of_section st (listSectionSummaries.sectionId i))
  | CreateBook _ | UpdateBook _ | ListBooks _ => None
  end.

(** The book id a request is about, for the seven actions that take one. *)
Definition target_book (req : Request) : option string :=
  match req with
  | UpdateBook i => Some (updateBook.id i)
  | CreateBookSection i => Some (createBookSection.bookId i)
  | UpdateBookSection i => Some (updateBookSection.bookId i)
  | DeleteBookSection i => Some (deleteBookSection.bookId i)
  | ListBookSections i => Some (listBookSections.bookId i)
  | CreateSectionSummary i => Some (createSectionSummary.bookId i)
  | ListSectionSummaries i => Some (listSectionSummaries.bookId i)
  | CreateBook _ | ListBooks _ => None
  end.

(** A session: requests served one after the other, with their outcomes. *)
Definition Call : Type := Request * ActionAPIContext.

Definition Outcome : Type := Call * (Failure + Data).

Fixpoint serve (rt : Runtime) (calls : list Call) (w : World)
  : list Outcome * World :=
  match calls with
  | [] => ([], w)
  | (req, context) :: rest =>
      let (r, w1) := server req context rt w in
      let (h, w2) := serve rt rest w1 in
      ((req, context, r) :: h, w2)
  end.

(** [updateBook] succeeded on [bookId] somewhere in the history. *)
Definition updated_in (history : list Outcome) (bookId : string) : Prop :=
  exists i context d,
    In (UpdateBook i, context, inr d) history /\ updateBook.id i = bookId.

(** From [w] to [w']: the three tables are the same, neither the clock
    nor the identifier source was read, and the statements issued in
    between were all reads. *)
Definition only_reads (w w' : World) : Prop :=
  db w' = db w /\ ticks w' = ticks w /\ draws w' = draws w /\
  exists issued,
    trace w' = trace w ++ issued /\ existsb is_write issued = false.

(** What identifies a stored Section and dates it. *)
Definition section_identity (s : BookSections.row) : string * string * Z :=
  (BookSections.id s, BookSections.bookId s, BookSections.createdAt s).

(** The same [createBookSection] input with another [orderIndex]. *)
Definition with_orderIndex (oi : option Z) (i : createBookSection.input)
  : createBookSection.input :=
  {| createBookSection.bookId := createBookSection.bookId i;
     createBookSection.sectionType := createBookSection.sectionType i;
     createBookSection.orderIndex := oi;
     createBookSection.title := createBookSection.title i;
     createBookSection.rawText := createBookSection.rawText i |}.

Definition empty_store : Store :=
  {| books := []; bookSections := []; sectionSummaries := [] |}.

Definition boot : World :=
  {| db := empty_store; trace := []; ticks := 0; draws := 0 |}.

(** ** A concrete world for the examples

    Two users; [U1] owns the book [B1] with one section [S1] and two
    summaries, [U2] owns the book [B2]. *)

Definition U1 : App.User := {| App.id := "U1" |}.
Definition U2 : App.User := {| App.id := "U2" |}.

Definition anonymous : ActionAPIContext :=
  {| locals := Some {| App.user := None |} |}.

Definition B1 : Books.row :=
  {| Books.id := "B1"; Books.userId := "U1"; Books.title := "Moby Dick";
     Books.author := Some "Herman Melville"; Books.sourceType := Some "manual";
     Books.sourceUrl := None; Books.language := Some "en"; Books.notes := None;
     Books.createdAt := 1000; Books.updatedAt := 1000 |}.

Definition B2 : Books.row :=
  {| Books.id := "B2"; Books.userId := "U2"; Books.title := "Walden";
     Books.author := None; Books.sourceType := None;
     Books.sourceUrl := None; Books.language := None; Books.notes := None;
     Books.createdAt := 1001; Books.updatedAt := 1001 |}.

Definition S1 : BookSections.row :=
  {| BookSections.id := "S1"; BookSections.bookId := "B1";
     BookSections.sectionType := Some "chapter";
     BookSections.orderIndex := Some 1%Z;
     BookSections.title := Some "Loomings";
     BookSections.rawText := "Call me Ishmael";
     BookSections.createdAt := 1002 |}.

Definition Y1 : SectionSummaries.row :=
  {| SectionSummaries.id := "Y1"; SectionSummaries.sectionId := "S1";
     SectionSummaries.variant := Some "short";
     SectionSummaries.language := Some "en";
     SectionSummaries.summaryText := "A sailor's tale";
     SectionSummaries.createdAt := 1003 |}.

Definition Y2 : SectionSummaries.row :=
  {| SectionSummaries.id := "Y2"; SectionSummaries.sectionId := "S1";
     SectionSummaries.variant := Some "bullets";
     SectionSummaries.language := None;
     SectionSummaries.summaryText := "- narrator goes to sea";
     SectionSummaries.createdAt := 1004 |}.

Definition library : Store :=
  {| books := [B1; B2]; bookSections := [S1];
     sectionSummaries := [Y1; Y2] |}.

Definition world0 : World :=
  {| db := library; trace := []; ticks := 5; draws := 5 |}.

(** The same world without [B1] and what hangs off it. *)
Definition world_without_B1 : World :=
  {| db := {| books := [B2]; bookSections := []; sectionSummaries := [] |};
     trace := []; ticks := 5; draws := 5 |}.

Definition uuid_of (n : nat) : string :=
  match n with
  | 0 => "B1" | 1 => "B2" | 2 => "S1" | 3 => "Y1" | 4 => "Y2"
  | 5 => "N5" | 6 => "N6" | _ => "N7"
  end.

Definition rt0 : Runtime :=
  {| clock := fun n => (1000 + Z.of_nat n)%Z; randomUUID := uuid_of |}.

(** Requests used in the examples. *)
Definition rename_S1 : updateBookSection.input :=
  {| updateBookSection.id := "S1"; updateBookSection.bookId := "B1";
     updateBookSection.sectionType := None;
     updateBookSection.orderIndex := None;
     updateBookSection.title := Some "Chapter 1";
     updateBookSection.rawText := None |}.

Definition blank_S1 : updateBookSection.input :=
  {| updateBookSection.id := "S1"; updateBookSection.bookId := "B1";
     updateBookSection.sectionType := None;
     updateBookSection.orderIndex := None;
     updateBookSection.title := None;
     updateBookSection.rawText := Some "" |}.

Definition annotate_B1 : updateBook.input :=
  {| updateBook.id := "B1"; updateBook.title := None;
     updateBook.author := None; updateBook.sourceType := None;
     updateBook.sourceUrl := None; updateBook.language := None;
     updateBook.notes := Some "reread in winter" |}.

Definition B1_annotated (updatedAt : Z) : Books.row :=
  {| Books.id := "B1"; Books.userId := "U1"; Books.title := "Moby Dick";
     Books.author := Some "Herman Melville"; Books.sourceType := Some "manual";
     Books.sourceUrl := None; Books.language := Some "en";
     Books.notes := Some "reread in winter";
     Books.createdAt := 1000; Books.updatedAt := updatedAt |}.

Definition add_moby_dick : createBook.input :=
  {| createBook.title := "Moby Dick";
     createBook.author := Some "Herman Melville";
     createBook.sourceType := Some "manual";
     createBook.sourceUrl := None;
     createBook.language := Some "en";
     createBook.notes := None |}.

Definition add_chapter_2 : createBookSection.input :=
  {| createBookSection.bookId := "B1";
     createBookSection.sectionType := Some "chapter";
     createBookSection.orderIndex := None;
     createBookSection.title := Some "The Carpet-Bag";
     createBookSection.rawText := "I stuffed a shirt or two" |}.

Definition drop_S1 : deleteBookSection.input :=
  {| deleteBookSection.id := "S1"; deleteBookSection.bookId := "B1" |}.

(** [world0] with the two summaries of [S1] taken away. *)
Definition world_no_summaries : World :=
  {| db := {| books := [B1; B2]; bookSections := [S1];
              sectionSummaries := [] |};
     trace := []; ticks := 5; draws := 5 |}.

(** [U1] creates a book, then annotates it. *)
Definition session : list Call :=
  [ (CreateBook add_moby_dick, signed_in U1);
    (UpdateBook annotate_B1, signed_in U1) ].

Definition S1_renamed : BookSections.row :=
  {| BookSections.id := "S1"; BookSections.bookId := "B1";
     BookSections.sectionType := Some "chapter";
     BookSections.orderIndex := Some 1%Z;
     BookSections.title := Some "Chapter 1";
     BookSections.rawText := "Call me Ishmael";
     BookSections.createdAt := 1002 |}.

(** ** Vocabulary of the further properties *)

(** The three actions that only query. *)
Definition is_list (req : Request) : bool :=
  match req with
  | ListBooks _ | ListBookSections _ | ListSectionSummaries _ => true
  | _ => false
  end.

(** The section id and book id a request passes to [getOwnedSection]. *)
Definition target_section (req : Request) : option (string * string) :=
  match req with
  | UpdateBookSection i =>
      Some (updateBookSection.id i, updateBookSection.bookId i)
  | DeleteBookSection i =>
      Some (deleteBookSection.id i, deleteBookSection.bookId i)
  | CreateSectionSummary i =>
      Some (createSectionSummary.sectionId i, createSectionSummary.bookId i)
  | ListSectionSummaries i =>
      Some (listSectionSummaries.sectionId i, listSectionSummaries.bookId i)
  | _ => None
  end.


(** What the schemas of the create and update actions let into the
    tables: a Book has a title, a Summary has a text, a Section has an
    [orderIndex]. *)
Definition rows_well_formed (st : Store) : Prop :=
  Forall (fun b => Books.title b <> "") (books st) /\
  Forall (fun s => BookSections.orderIndex s <> None) (bookSections st) /\
  Forall (fun y => SectionSummaries.summaryText y <> "")
         (sectionSummaries st).

(** The requester's user id, when signed in, owns a stored Book of that id. *)
Definition owns_book (st : Store) (u : App.User) (bookId : string) : Prop :=
  exists b, In b (books st) /\ Books.id b = bookId /\
            Books.userId b = App.id u.

(** No stored Book of that id belongs to the user. *)
Definition foreign_book (st : Store) (u : App.User) (bookId : string)
  : Prop :=
  forall b, In b (books st) -> Books.id b = bookId ->
            Books.userId b <> App.id u.

(** Further requests and worlds for the examples. *)

Definition annotate_B2 : updateBook.input :=
  {| updateBook.id := "B2"; updateBook.title := None;
     updateBook.author := Some "H. D. Thoreau"; updateBook.sourceType := None;
     updateBook.sourceUrl := None; updateBook.language := None;
     updateBook.notes := None |}.

Definition B3 : Books.row :=
  {| Books.id := "B3"; Books.userId := "U1"; Books.title := "Typee";
     Books.author := None; Books.sourceType := None;
     Books.sourceUrl := None; Books.language := None; Books.notes := None;
     Books.createdAt := 1005; Books.updatedAt := 1005 |}.

(** [world0] after [U1] added a second book. *)
Definition world_two_books : World :=
  {| db := {| books := [B1; B2; B3]; bookSections := [S1];
              sectionSummaries := [Y1; Y2] |};
     trace := []; ticks := 6; draws := 6 |}.

Definition summaries_of_S1_under (bookId : string)
  : listSectionSummaries.input :=
  {| listSectionSummaries.sectionId := "S1";
     listSectionSummaries.bookId := bookId |}.

(** No stored Book was modified before it was created, nor later than the
    next reading of the clock. *)
Definition timestamps_ordered (rt : Runtime) (w : World) : Prop :=
  forall b, In b (books (db w)) ->
            (Books.createdAt b <= Books.updatedAt b)%Z /\
            (Books.updatedAt b <= clock rt (ticks w))%Z.

(** Every Book of [st] is still in [st'], under the same id, with the same
    owner and creation time. *)
Definition books_persist (st st' : Store) : Prop :=
  forall b, In b (books st) ->
            exists b', In b' (books st') /\
                       Books.id b' = Books.id b /\
                       Books.userId b' = Books.userId b /\
                       Books.createdAt b' = Books.createdAt b.

(** [add_chapter_2] with the first [orderIndex] the client cannot hand
    back, [2^53]. *)
Definition add_chapter_unsafe : createBookSection.input :=
  with_orderIndex (Some 9007199254740992%Z) add_chapter_2.

(** * Properties *)

(** ** The monad and the helpers *)

Lemma bind_ok {A B} (c : M A) (k : A -> M B) rt w a w1 :
  c rt w = (inr a, w1) -> bind c k rt w = k a rt w1.
Proof. intros E. unfold bind. now rewrite E. Qed.

Lemma bind_fail {A B} (c : M A) (k : A -> M B) rt w e w1 :
  c rt w = (inl e, w1) -> bind c k rt w = (inl e, w1).
Proof. intros E. unfold bind. now rewrite E. Qed.

Lemma requireUser_signed_in context u rt w :
  locals_user context = Some u -> requireUser context rt w = (inr u, w).
Proof. intros E. unfold requireUser. now rewrite E. Qed.

Lemma requireUser_anonymous context rt w :
  locals_user context = None ->
  requireUser context rt w = (inl unauthorized, w).
Proof. intros E. unfold requireUser. now rewrite E. Qed.

Lemma defineAction_accepts {I} (input : I -> bool) h i context :
  input i = true -> defineAction input h i context = h i context.
Proof. intros E. unfold defineAction. now rewrite E. Qed.

Lemma defineAction_rejects {I} (input : I -> bool) h i context rt w :
  input i = false ->
  defineAction input h i context rt w = (inl VALIDATION, w).
Proof. intros E. unfold defineAction. now rewrite E. Qed.

Lemma server_accepts req context :
  input_ok req = true -> server req context = handler req context.
Proof. destruct req; simpl; apply defineAction_accepts. Qed.

Lemma server_rejects req context rt w :
  input_ok req = false -> server req context rt w = (inl VALIDATION, w).
Proof. destruct req; simpl; apply defineAction_rejects. Qed.

Lemma handler_anonymous req context rt w :
  locals_user context = None ->
  handler req context rt w = (inl unauthorized, w).
Proof.
  intros E.
  destruct req; simpl;
    match goal with
    | |- ?h _ _ _ _ = _ => unfold h
    end;
    apply bind_fail, requireUser_anonymous, E.
Qed.

(** C6, at the input that refutes it: nobody is signed in and the request
    supplies no field to update; the schema rejects the request before the
    handler, hence before [requireUser], and the failure is VALIDATION. *)
Lemma anonymous_update_without_fields_is_validation :
  let req := UpdateBook
    {| updateBook.id := "B1"; updateBook.title := None;
       updateBook.author := None; updateBook.sourceType := None;
       updateBook.sourceUrl := None; updateBook.language := None;
       updateBook.notes := None |} in
  locals_user anonymous = None /\
  server req anonymous rt0 world0 = (inl VALIDATION, world0) /\
  fst (server req anonymous rt0 world0) <> inl unauthorized.
Proof. repeat split. discriminate. Qed.

(** C6, amended: when nobody is signed in, every handler fails with
    UNAUTHORIZED and leaves the world as it was: the store, the trace of
    statements (no read and no write is issued), the clock and the
    identifier source.  So does every action on a request that passes its
    input schema; a request that the schema rejects fails with VALIDATION
    first, with the world untouched as well. *)
Theorem anonymous_request_never_reaches_the_store :
  forall req context rt w,
    locals_user context = None ->
    handler req context rt w = (inl unauthorized, w) /\
    (input_ok req = true ->
     server req context rt w = (inl unauthorized, w)) /\
    (input_ok req = false ->
     server req context rt w = (inl VALIDATION, w)).
Proof.
  intros req context rt w E. repeat split.
  - now apply handler_anonymous.
  - intros V. rewrite server_accepts by exact V. now apply handler_anonymous.
  - intros V. now apply server_rejects.
Qed.

Lemma anonymous_request_never_reaches_the_store_witness :
  locals_user anonymous = None /\
  input_ok (DeleteBookSection drop_S1) = true /\
  server (DeleteBookSection drop_S1) anonymous rt0 world0
  = (inl unauthorized, world0).
Proof.
  destruct (anonymous_request_never_reaches_the_store
              (DeleteBookSection drop_S1) anonymous rt0 world0 eq_refl)
    as (_ & Valid & _).
  split; [reflexivity | split; [reflexivity | apply Valid; reflexivity]].
Defined.

(** C4: an [updateBook] or [updateBookSection] request that supplies none
    of the optional fields fails with VALIDATION, whoever sends it and
    whatever the store holds, and the world is unchanged: no statement,
    read or write, is issued. *)
Theorem update_without_fields_is_rejected :
  forall (id bookId : string) context rt w,
    updateBook.action
      {| updateBook.id := id; updateBook.title := None;
         updateBook.author := None; updateBook.sourceType := None;
         updateBook.sourceUrl := None; updateBook.language := None;
         updateBook.notes := None |} context rt w = (inl VALIDATION, w) /\
    updateBookSection.action
      {| updateBookSection.id := id; updateBookSection.bookId := bookId;
         updateBookSection.sectionType := None;
         updateBookSection.orderIndex := None;
         updateBookSection.title := None;
         updateBookSection.rawText := None |} context rt w
    = (inl VALIDATION, w).
Proof.
  intros. split.
  - apply defineAction_rejects. unfold updateBook.schema. simpl.
    apply andb_false_r.
  - apply defineAction_rejects. unfold updateBookSection.schema. simpl.
    apply andb_false_r.
Qed.

(** ** Ownership checks *)

Lemma only_reads_select (t : TableName) w :
  only_reads w (logged (SELECT t) (db w) w).
Proof.
  unfold only_reads, logged; simpl. repeat split.
  exists [SELECT t]. split; reflexivity.
Qed.

Lemma only_reads_select2 (t t' : TableName) w :
  only_reads w (logged (SELECT t') (db w) (logged (SELECT t) (db w) w)).
Proof.
  unfold only_reads, logged; simpl. repeat split.
  exists [SELECT t; SELECT t']. split; [now rewrite <- app_assoc | reflexivity].
Qed.

Lemma forallb_true {R} (l : list R) : forallb (fun _ => true) l = true.
Proof. induction l; simpl; auto. Qed.

Lemma existsb_false {R} (l : list R) : existsb (fun _ => false) l = false.
Proof. induction l; simpl; auto. Qed.

Lemma handed_back_Books l : handed_back Books l = inr l.
Proof. unfold handed_back. simpl. now rewrite forallb_true. Qed.

Lemma handed_back_SectionSummaries l : handed_back SectionSummaries l = inr l.
Proof. unfold handed_back. simpl. now rewrite forallb_true. Qed.

Lemma handed_back_nil {R} (T : Table R) : handed_back T [] = inr [].
Proof. reflexivity. Qed.

Lemma getOwnedBook_run bookId userId rt w :
  getOwnedBook bookId userId rt w =
  (match first (filter (and_ (eq_ Books.id bookId) (eq_ Books.userId userId))
                       (books (db w))) with
   | None => inl book_not_found
   | Some book => inr book
   end,
   logged (SELECT TBooks) (db w) w).
Proof.
  unfold getOwnedBook, bind, db_select; simpl.
  rewrite handed_back_Books.
  now destruct (first _).
Qed.

Lemma getOwnedSection_run sectionId bookId userId rt w :
  getOwnedSection sectionId bookId userId rt w =
  match first (filter (and_ (eq_ Books.id bookId) (eq_ Books.userId userId))
                      (books (db w))) with
  | None => (inl book_not_found, logged (SELECT TBooks) (db w) w)
  | Some _ =>
      (match handed_back BookSections
               (filter (and_ (eq_ BookSections.id sectionId)
                             (eq_ BookSections.bookId bookId))
                       (bookSections (db w))) with
       | inl e => inl e
       | inr found =>
           match first found with
           | None => inl section_not_found
           | Some section => inr section
           end
       end,
       logged (SELECT TBookSections) (db w)
              (logged (SELECT TBooks) (db w) w))
  end.
Proof.
  unfold getOwnedSection, bind. rewrite getOwnedBook_run.
  destruct (first _); [| reflexivity].
  unfold db_select; simpl.
  destruct (handed_back _ _) as [e | found]; [reflexivity |].
  now destruct (first found).
Qed.

Lemma first_In {R} (l : list R) r : first l = Some r -> In r l.
Proof. destruct l; simpl; [discriminate | intros [= ->]; now left]. Qed.

Lemma first_filter_none {R} (p : R -> bool) l :
  (forall r, In r l -> p r = false) -> first (filter p l) = None.
Proof.
  intros H. destruct (first (filter p l)) as [r |] eqn:E; [| reflexivity].
  apply first_In, filter_In in E. destruct E as [I P].
  rewrite (H r I) in P. discriminate.
Qed.

Lemma eq_holds {R} (column : R -> string) v r :
  eq_ column v r = true <-> column r = v.
Proof. unfold eq_. apply String.eqb_eq. Qed.

Lemma and_holds {R} (p q : R -> bool) r :
  and_ p q r = true <-> p r = true /\ q r = true.
Proof. unfold and_. apply andb_true_iff. Qed.

Lemma getOwnedBook_foreign bookId userId rt w :
  (forall b, In b (books_with_id (db w) bookId) ->
             Books.userId b <> userId) ->
  getOwnedBook bookId userId rt w
  = (inl book_not_found, logged (SELECT TBooks) (db w) w).
Proof.
  intros F. rewrite getOwnedBook_run.
  destruct (first _) as [b |] eqn:E; [| reflexivity].
  apply first_In, filter_In in E. destruct E as [I P].
  apply and_holds in P. destruct P as [Pi Pu]. apply eq_holds in Pu.
  exfalso. apply (F b); [| exact Pu].
  apply filter_In. split; assumption.
Qed.

Lemma getOwnedSection_foreign sectionId bookId userId rt w :
  (forall b, In b (books_of_section (db w) sectionId) ->
             Books.userId b <> userId) ->
  exists m w',
    getOwnedSection sectionId bookId userId rt w
    = (inl (ActionError NOT_FOUND m), w') /\ only_reads w w'.
Proof.
  intros F. rewrite getOwnedSection_run.
  destruct (first _) as [b |] eqn:Eb.
  - destruct (filter _ (bookSections _)) as [| s rest] eqn:Es.
    + eexists _, _. split; [reflexivity | apply only_reads_select2].
    + exfalso.
      apply first_In, filter_In in Eb. destruct Eb as [Ib Pb].
      apply and_holds in Pb. destruct Pb as [Pbi Pbu].
      assert (Fs : In s (filter (and_ (eq_ BookSections.id sectionId)
                                      (eq_ BookSections.bookId bookId))
                                (bookSections (db w))))
        by (rewrite Es; now left).
      apply filter_In in Fs. destruct Fs as [Is Ps].
      apply and_holds in Ps. destruct Ps as [Psi Psb].
      apply eq_holds in Pbu, Psb. apply (F b); [| exact Pbu].
      unfold books_of_section. apply in_flat_map. exists s. split.
      * apply filter_In. split; assumption.
      * apply filter_In. split; [exact Ib |].
        rewrite Psb. exact Pbi.
  - eexists _, _. split; [reflexivity | apply only_reads_select].
Qed.

Lemma getOwnedSection_book_foreign sectionId bookId userId rt w :
  (forall b, In b (books_with_id (db w) bookId) ->
             Books.userId b <> userId) ->
  getOwnedSection sectionId bookId userId rt w
  = (inl book_not_found, logged (SELECT TBooks) (db w) w).
Proof.
  intros F. unfold getOwnedSection.
  apply bind_fail. now apply getOwnedBook_foreign.
Qed.

Ltac enter_handler U :=
  match goal with
  | |- context [?h _ _ _ _] =>
      unfold h; rewrite (bind_ok _ _ _ _ _ _ (requireUser_signed_in _ _ _ _ U))
  end.

(** C1, at the input that refutes it: [U2] asks for a section under the
    book [B1] of [U1] with an empty [rawText]; the schema rejects the
    request before the ownership check and the failure is VALIDATION. *)
Lemma foreign_request_with_invalid_input_is_validation :
  let req := CreateBookSection
    {| createBookSection.bookId := "B1";
       createBookSection.sectionType := None;
       createBookSection.orderIndex := None;
       createBookSection.title := None;
       createBookSection.rawText := "" |} in
  owning_books (db world0) req = Some [B1] /\
  Books.userId B1 <> App.id U2 /\
  server req (signed_in U2) rt0 world0 = (inl VALIDATION, world0) /\
  forall m, fst (server req (signed_in U2) rt0 world0)
            <> inl (ActionError NOT_FOUND m).
Proof. repeat split; discriminate. Qed.

(** C1, amended: for each of the six Section and Summary actions and every
    request that passes the action's input schema, if no Book owning the
    targeted entity belongs to the signed-in requester, the action fails
    with NOT_FOUND; the tables are unchanged and only reads were issued. *)
Theorem foreign_section_or_summary_request_is_not_found :
  forall req owners u context rt w,
    owning_books (db w) req = Some owners ->
    locals_user context = Some u ->
    (forall b, In b owners -> Books.userId b <> App.id u) ->
    input_ok req = true ->
    exists m w',
      server req context rt w = (inl (ActionError NOT_FOUND m), w') /\
      only_reads w w'.
Proof.
  intros req owners u context rt w O U F V.
  rewrite server_accepts by exact V.
  destruct req; simpl in O; try discriminate; injection O as <-; simpl;
    enter_handler U.
  - (* createBookSection *)
    eexists _, _. split.
    + apply bind_fail. apply getOwnedBook_foreign. exact F.
    + apply only_reads_select.
  - (* updateBookSection *)
    destruct (getOwnedSection_foreign
                (updateBookSection.id i) (updateBookSection.bookId i)
                (App.id u) rt w F) as (m & w' & E & R).
    exists m, w'. split; [now apply bind_fail | exact R].
  - (* deleteBookSection *)
    destruct (getOwnedSection_foreign
                (deleteBookSection.id i) (deleteBookSection.bookId i)
                (App.id u) rt w F) as (m & w' & E & R).
    exists m, w'. split; [now apply bind_fail | exact R].
  - (* listBookSections *)
    eexists _, _. split.
    + apply bind_fail. apply getOwnedBook_foreign. exact F.
    + apply only_reads_select.
  - (* createSectionSummary *)
    destruct (getOwnedSection_foreign
                (createSectionSummary.sectionId i)
                (createSectionSummary.bookId i)
                (App.id u) rt w F) as (m & w' & E & R).
    exists m, w'. split; [now apply bind_fail | exact R].
  - (* listSectionSummaries *)
    destruct (getOwnedSection_foreign
                (listSectionSummaries.sectionId i)
                (listSectionSummaries.bookId i)
                (App.id u) rt w F) as (m & w' & E & R).
    exists m, w'. split; [now apply bind_fail | exact R].
Qed.

Lemma foreign_section_or_summary_request_is_not_found_witness :
  owning_books (db world0) (UpdateBookSection rename_S1) = Some [B1] /\
  exists m w',
    server (UpdateBookSection rename_S1) (signed_in U2) rt0 world0
    = (inl (ActionError NOT_FOUND m), w') /\
    only_reads world0 w'.
Proof.
  split; [reflexivity |].
  apply (foreign_section_or_summary_request_is_not_found
           (UpdateBookSection rename_S1) [B1] U2 (signed_in U2) rt0 world0).
  - reflexivity.
  - reflexivity.
  - intros b [<- | []]. discriminate.
  - reflexivity.
Defined.

(** What a requester who owns no book of that id gets from any of the
    seven actions that take a book id. *)
Lemma not_owner_gets_book_not_found req bookId u context rt w :
  target_book req = Some bookId ->
  locals_user context = Some u ->
  (forall b, In b (books_with_id (db w) bookId) ->
             Books.userId b <> App.id u) ->
  server req context rt w =
  if input_ok req
  then (inl book_not_found, logged (SELECT TBooks) (db w) w)
  else (inl VALIDATION, w).
Proof.
  intros T U F.
  destruct (input_ok req) eqn:V; [| now apply server_rejects].
  rewrite server_accepts by exact V.
  destruct req; simpl in T; try discriminate; injection T as <-; simpl;
    enter_handler U; apply bind_fail;
    first [ now apply getOwnedBook_foreign
          | now apply getOwnedSection_book_foreign ].
Qed.

(** C7, at the input that refutes it: [U2] asks for a summary under the
    book [B1] with an empty [summaryText], once where [B1] does not exist
    and once where it belongs to [U1]; the two runs agree, but on
    VALIDATION. *)
Lemma non_owner_invalid_request_is_validation_in_both_runs :
  let req := CreateSectionSummary
    {| createSectionSummary.sectionId := "S1";
       createSectionSummary.bookId := "B1";
       createSectionSummary.variant := None;
       createSectionSummary.language := None;
       createSectionSummary.summaryText := "" |} in
  target_book req = Some "B1" /\
  books_with_id (db world_without_B1) "B1" = [] /\
  books_with_id (db world0) "B1" = [B1] /\
  Books.userId B1 <> App.id U2 /\
  fst (server req (signed_in U2) rt0 world_without_B1) = inl VALIDATION /\
  fst (server req (signed_in U2) rt0 world0) = inl VALIDATION /\
  forall m, fst (server req (signed_in U2) rt0 world0)
            <> inl (ActionError NOT_FOUND m).
Proof. repeat split; discriminate. Qed.

(** C7, amended: a signed-in requester sends the same request about a book
    id to a world where no book has that id and to a world where the book
    exists and belongs to somebody else.  The two results are equal: the
    NOT_FOUND failure "Book not found." when the request passes the input
    schema, the VALIDATION failure when it does not; neither run changes a
    table. *)
Theorem non_owner_cannot_tell_missing_from_foreign :
  forall req bookId u context rt w1 w2,
    target_book req = Some bookId ->
    locals_user context = Some u ->
    books_with_id (db w1) bookId = [] ->
    books_with_id (db w2) bookId <> [] ->
    (forall b, In b (books_with_id (db w2) bookId) ->
               Books.userId b <> App.id u) ->
    fst (server req context rt w1) = fst (server req context rt w2) /\
    fst (server req context rt w1)
    = inl (if input_ok req then book_not_found else VALIDATION) /\
    db (snd (server req context rt w1)) = db w1 /\
    db (snd (server req context rt w2)) = db w2.
Proof.
  intros req bookId u context rt w1 w2 T U A _ F.
  assert (F1 : forall b, In b (books_with_id (db w1) bookId) ->
                         Books.userId b <> App.id u)
    by (rewrite A; intros b []).
  rewrite (not_owner_gets_book_not_found req bookId u context rt w1 T U F1).
  rewrite (not_owner_gets_book_not_found req bookId u context rt w2 T U F).
  destruct (input_ok req); simpl; repeat split.
Qed.

Lemma non_owner_cannot_tell_missing_from_foreign_witness :
  let req := UpdateBookSection rename_S1 in
  books_with_id (db world_without_B1) "B1" = [] /\
  books_with_id (db world0) "B1" = [B1] /\
  fst (server req (signed_in U2) rt0 world_without_B1)
  = fst (server req (signed_in U2) rt0 world0) /\
  fst (server req (signed_in U2) rt0 world_without_B1) = inl book_not_found.
Proof.
  destruct (non_owner_cannot_tell_missing_from_foreign
              (UpdateBookSection rename_S1) "B1" U2 (signed_in U2) rt0
              world_without_B1 world0) as (E & R & _).
  - reflexivity.
  - reflexivity.
  - reflexivity.
  - discriminate.
  - intros b [<- | []]. discriminate.
  - split; [reflexivity | split; [reflexivity | split; [exact E | exact R]]].
Defined.

(** ** Running the handlers *)

Ltac run_handler :=
  cbv beta delta [defineAction bind requireUser getOwnedSection getOwnedBook
    db_select db_insert db_update db_delete handed_back new_Date
    crypto_randomUUID ret throw logged]; simpl.

Ltac tidy := rewrite ?forallb_true, ?existsb_false, ?andb_true_r; simpl.

Ltac split_cases :=
  tidy;
  repeat (match goal with
          | |- context [match ?c with _ => _ end] =>
              lazymatch c with
              | context [match _ with _ => _ end] => fail
              | _ => destruct c eqn:?; simpl
              end
          end; tidy).

Ltac run_handler_in H :=
  cbv beta delta [defineAction bind requireUser getOwnedSection getOwnedBook
    db_select db_insert db_update db_delete handed_back new_Date
    crypto_randomUUID ret throw logged] in H; simpl in H.

Ltac tidy_in H :=
  rewrite ?forallb_true, ?existsb_false, ?andb_true_r in H; simpl in H.

Ltac split_cases_in H :=
  tidy_in H;
  repeat (match type of H with
          | context [match ?c with _ => _ end] =>
              lazymatch c with
              | context [match _ with _ => _ end] => fail
              | _ => destruct c eqn:?; simpl in H
              end
          end; tidy_in H).

Ltac replay :=
  repeat first
    [ progress tidy
    | match goal with H : ?x = _ |- context [?x] => rewrite H end; simpl ].

Ltac enter_action ctx rt w :=
  match goal with |- context [?a ?i ctx rt w] => unfold a end;
  match goal with |- context [defineAction _ ?h] => unfold h end;
  run_handler; split_cases.

Lemma server_books_step req ctx rt w :
  forall b', In b' (books (db (snd (server req ctx rt w)))) ->
    In b' (books (db w)) \/
    Books.createdAt b' = Books.updatedAt b' \/
    (exists i d, req = UpdateBook i /\ fst (server req ctx rt w) = inr d /\
                 updateBook.id i = Books.id b').
Proof.
  destruct req as [i|i|i|i|i|i|i|i|i]; simpl; enter_action ctx rt w;
    intros b' I; auto.
  - apply in_app_or in I. destruct I as [I | [<- | []]]; auto.
  - apply in_map_iff in I. destruct I as (x & E & I).
    destruct (eq_ Books.id (updateBook.id i) x) eqn:K.
    + right. right. exists i. eexists. repeat split.
      subst b'. simpl. symmetry. now apply eq_holds in K.
    + subst b'. auto.
Qed.

Lemma existsb_eq_false {R} (column : R -> string) v l :
  existsb (eq_ column v) l = false -> ~ In v (map column l).
Proof.
  intros X I. apply in_map_iff in I. destruct I as (x & E & I).
  assert (existsb (eq_ column v) l = true).
  { apply existsb_exists. exists x. split; [exact I | now apply eq_holds]. }
  congruence.
Qed.

Lemma server_sections_step req ctx rt w :
  forall s', In s' (bookSections (db (snd (server req ctx rt w)))) ->
    In (section_identity s') (map section_identity (bookSections (db w))) \/
    ~ In (BookSections.id s') (map BookSections.id (bookSections (db w))).
Proof.
  destruct req as [i|i|i|i|i|i|i|i|i]; simpl; enter_action ctx rt w;
    intros s' I;
    try (left; now apply in_map).
  all: try (apply in_app_or in I; destruct I as [I | [<- | []]];
            [left; now apply in_map
            | right; simpl; now apply existsb_eq_false]).
  all: try (apply filter_In in I; left; now apply in_map).
  all: apply in_map_iff in I; destruct I as (x & E & I); left;
    destruct (eq_ BookSections.id (updateBookSection.id i) x); subst s';
    [ change (section_identity (updateBookSection.set_ i x))
        with (section_identity x) |];
    now apply in_map.
Qed.

Lemma NoDup_map_filter {R K} (f : R -> K) (p : R -> bool) l :
  NoDup (map f l) -> NoDup (map f (filter p l)).
Proof.
  induction l as [| x l IH]; simpl; intros N; [constructor |].
  inversion N as [| ? ? Nx Nl]; subst.
  destruct (p x); simpl; [| now apply IH].
  constructor; [| now apply IH].
  intros I. apply Nx. apply in_map_iff in I. destruct I as (y & E & I).
  apply filter_In in I. rewrite <- E. apply in_map. tauto.
Qed.

Lemma NoDup_map_snoc {R} (column : R -> string) l v :
  NoDup (map column l) ->
  existsb (eq_ column (column v)) l = false ->
  NoDup (map column (l ++ [v])).
Proof.
  intros N X. rewrite map_app. simpl.
  apply NoDup_app; [exact N | repeat constructor; intros [] | ].
  intros k I [<- | []]. revert I. now apply existsb_eq_false.
Qed.

Lemma map_key_update {R K} (f : R -> K) (p : R -> bool) (g : R -> R) l :
  (forall r, f (g r) = f r) ->
  map f (map (fun r => if p r then g r else r) l) = map f l.
Proof.
  intros E. rewrite map_map. apply map_ext. intros r.
  destruct (p r); [apply E | reflexivity].
Qed.

Lemma server_preserves_primary_keys req ctx rt w :
  primary_keys_unique (db w) ->
  primary_keys_unique (db (snd (server req ctx rt w))).
Proof.
  unfold primary_keys_unique. intros (Nb & Ns & Ny).
  destruct req as [i|i|i|i|i|i|i|i|i]; simpl; enter_action ctx rt w;
    repeat split; try assumption;
    first [ now apply NoDup_map_snoc
          | now rewrite map_key_update
          | now apply NoDup_map_filter ].
Qed.

(** Every store reached by serving requests from the empty one has
    unique primary keys. *)
Lemma serve_preserves_primary_keys rt calls :
  forall w,
    primary_keys_unique (db w) ->
    primary_keys_unique (db (snd (serve rt calls w))).
Proof.
  induction calls as [| [req ctx] rest IH]; simpl; intros w K; [exact K |].
  assert (K1 := server_preserves_primary_keys req ctx rt w K).
  destruct (server req ctx rt w) as [r w1]. simpl in K1.
  assert (K2 := IH w1 K1).
  destruct (serve rt rest w1) as [h w2]. exact K2.
Qed.

Lemma boot_primary_keys : primary_keys_unique (db boot).
Proof. repeat split; constructor. Qed.

Lemma serve_books_invariant rt calls :
  forall w history w' (Q : string -> Prop),
    serve rt calls w = (history, w') ->
    (forall b, In b (books (db w)) ->
               Books.createdAt b <> Books.updatedAt b -> Q (Books.id b)) ->
    forall b, In b (books (db w')) ->
              Books.createdAt b <> Books.updatedAt b ->
              Q (Books.id b) \/ updated_in history (Books.id b).
Proof.
  induction calls as [| [req ctx] rest IH]; simpl; intros w history w' Q E G.
  - injection E as <- <-. intros b I D. left. now apply G.
  - destruct (server req ctx rt w) as [r w1] eqn:E1.
    destruct (serve rt rest w1) as [h w2] eqn:E2.
    injection E as <- <-. intros b I D.
    destruct (IH w1 h w2
                 (fun x => Q x \/ updated_in [(req, ctx, r)] x) E2)
      with (b := b)
      as [[q | (i & c & d & [K | []] & X)] | (i & c & d & K & X)];
      try assumption.
    + intros b1 I1 D1.
      assert (S := server_books_step req ctx rt w b1).
      rewrite E1 in S. simpl in S.
      destruct (S I1) as [Old | [Same | (i & d & -> & -> & X)]].
      * left. now apply G.
      * contradiction.
      * right. exists i, ctx, d. split; [now left | exact X].
    + now left.
    + right. exists i, c, d. split; [left; exact K | exact X].
    + right. exists i, c, d. split; [right; exact K | exact X].
Qed.

(** C10: a successful [createBook] reads the clock once and stores the
    reading in both [createdAt] and [updatedAt] of the Book it returns and
    inserts.  Hence, in any session served from the empty store, a Book
    whose [updatedAt] differs from its [createdAt] is one that an
    [updateBook] request of the session succeeded on. *)
Theorem createBook_timestamps_coincide :
  (forall i ctx rt w d w',
      createBook.action i ctx rt w = (inr d, w') ->
      exists b,
        d = data_book (Some b) /\ In b (books (db w')) /\
        Books.createdAt b = clock rt (ticks w) /\
        Books.updatedAt b = clock rt (ticks w) /\
        Books.createdAt b = Books.updatedAt b /\
        ticks w' = S (ticks w)) /\
  (forall rt calls history w',
      serve rt calls boot = (history, w') ->
      forall b, In b (books (db w')) ->
                Books.createdAt b <> Books.updatedAt b ->
                updated_in history (Books.id b)).
Proof.
  split.
  - intros i ctx rt w d w'. enter_action ctx rt w; intros [= <- <-].
    eexists. repeat split. simpl. apply in_or_app. right. now left.
  - intros rt calls history w' E b I D.
    assert (G : forall b0, In b0 (books (db boot)) ->
                Books.createdAt b0 <> Books.updatedAt b0 -> False)
      by (intros b0 []).
    destruct (serve_books_invariant rt calls boot history w'
                (fun _ => False) E G b I D) as [[] | U].
    exact U.
Qed.

Lemma createBook_timestamps_coincide_witness :
  (exists b,
      fst (createBook.action add_moby_dick (signed_in U2) rt0 world0)
      = inr (data_book (Some b)) /\
      Books.createdAt b = 1005%Z /\ Books.updatedAt b = 1005%Z) /\
  In (B1_annotated 1001) (books (db (snd (serve rt0 session boot)))) /\
  updated_in (fst (serve rt0 session boot)) "B1".
Proof.
  destruct createBook_timestamps_coincide as [Once Later].
  split; [| split].
  - edestruct (Once add_moby_dick (signed_in U2) rt0 world0)
      as (b & D & _ & C & Up & _); [reflexivity |].
    exists b.
    split; [exact (f_equal (@inr Failure Data) D) | split; assumption].
  - left. reflexivity.
  - apply (Later rt0 session (fst (serve rt0 session boot))
                 (snd (serve rt0 session boot)) eq_refl
                 (B1_annotated 1001)).
    + left. reflexivity.
    + discriminate.
Defined.

(** C8: a successful [createBookSection] returns and appends one Section
    whose [orderIndex] is the supplied integer, or 1 when the request
    omits it; the Sections stored before are left as they were (nothing is
    renumbered); and no uniqueness is enforced: the same request with any
    other value that the client can hand back, one already in use
    included, succeeds as well and stores that value. *)
Theorem createBookSection_orderIndex :
  forall i ctx rt w d w',
    createBookSection.action i ctx rt w = (inr d, w') ->
    exists s,
      d = data_section (Some s) /\
      BookSections.orderIndex s
      = Some (match createBookSection.orderIndex i with
              | Some n => n
              | None => 1%Z
              end) /\
      bookSections (db w') = bookSections (db w) ++ [s] /\
      forall oi,
        converts (match oi with Some n => n | None => 1%Z end) = true ->
        exists s2 w2,
          createBookSection.action (with_orderIndex oi i) ctx rt w
          = (inr (data_section (Some s2)), w2) /\
          BookSections.orderIndex s2
          = Some (match oi with Some n => n | None => 1%Z end) /\
          bookSections (db w2) = bookSections (db w) ++ [s2].
Proof.
  intros i ctx rt w d w' E.
  unfold createBookSection.action, createBookSection.handler in E.
  run_handler_in E. split_cases_in E; try discriminate.
  injection E as <- <-. eexists.
  split; [reflexivity | split; [reflexivity | split; [reflexivity |]]].
  intros oi Safe. eexists _, _.
  unfold createBookSection.action, createBookSection.handler.
  run_handler.
  change (createBookSection.schema (with_orderIndex oi i))
    with (createBookSection.schema i).
  replay.
  unfold readable_section; simpl.
  change (createBookSection.orderIndex_or_1 (with_orderIndex oi i))
    with (match oi with Some n => n | None => 1%Z end).
  rewrite Safe. simpl.
  split; [reflexivity | split; reflexivity].
Qed.

Lemma createBookSection_orderIndex_witness :
  exists s s7 w7 s1 w1,
    fst (createBookSection.action add_chapter_2 (signed_in U1) rt0 world0)
    = inr (data_section (Some s)) /\
    createBookSection.orderIndex add_chapter_2 = None /\
    BookSections.orderIndex s = Some 1%Z /\
    createBookSection.action (with_orderIndex (Some 7%Z) add_chapter_2)
                             (signed_in U1) rt0 world0
    = (inr (data_section (Some s7)), w7) /\
    BookSections.orderIndex s7 = Some 7%Z /\
    createBookSection.action (with_orderIndex (Some 1%Z) add_chapter_2)
                             (signed_in U1) rt0 world0
    = (inr (data_section (Some s1)), w1) /\
    BookSections.orderIndex s1 = BookSections.orderIndex S1 /\
    bookSections (db w1) = [S1; s1].
Proof.
  edestruct (createBookSection_orderIndex
               add_chapter_2 (signed_in U1) rt0 world0)
    as (s & D & O & _ & Any); [reflexivity |].
  destruct (Any (Some 7%Z) eq_refl) as (s7 & w7 & E7 & O7 & _).
  destruct (Any (Some 1%Z) eq_refl) as (s1 & w1 & E1 & O1 & A1).
  exists s, s7, w7, s1, w1.
  split; [exact (f_equal (@inr Failure Data) D) |].
  split; [reflexivity |].
  split; [exact O |].
  split; [exact E7 |].
  split; [exact O7 |].
  split; [exact E1 |].
  split; [exact O1 | exact A1].
Defined.

(** ** Updates and deletions *)

Lemma first_filter_some {R} (p : R -> bool) l r :
  In r l -> p r = true -> exists r', first (filter p l) = Some r'.
Proof.
  intros I P. destruct (filter p l) as [| x l'] eqn:E.
  - assert (In r (filter p l)) by (apply filter_In; tauto).
    rewrite E in H. destruct H.
  - now exists x.
Qed.

Lemma filter_negb_filter {R} (p : R -> bool) l :
  filter p (filter (fun r => negb (p r)) l) = [].
Proof.
  induction l as [| x l IH]; simpl; [reflexivity |].
  destruct (p x) eqn:P; simpl; [exact IH |].
  now rewrite P.
Qed.

Lemma eq_fails {R} (column : R -> string) v r :
  negb (eq_ column v r) = true <-> column r <> v.
Proof.
  unfold eq_. rewrite negb_true_iff. apply String.eqb_neq.
Qed.

(** C5, at the failing input: [S1] belongs to [U1] and has two Summaries.
    [deleteBookSection] deletes the Section first, the store refuses the
    statement because the Summaries still refer to the Section, and the
    request fails: the Section and its two Summaries are all still stored
    and the statement that would delete the Summaries is never issued. *)
Theorem deleteBookSection_is_refused_while_summaries_remain :
  List.length (summaries_of (db world0) "S1") = 2 /\
  deleteBookSection.schema drop_S1 = true /\
  exists w',
    deleteBookSection.action drop_S1 (signed_in U1) rt0 world0
    = (inl CONSTRAINT, w') /\
    db w' = db world0 /\
    sections_with_id (db w') "S1" = [S1] /\
    summaries_of (db w') "S1" = [Y1; Y2] /\
    trace w' = [SELECT TBooks; SELECT TBookSections; DELETE TBookSections].
Proof.
  split; [reflexivity |]. split; [reflexivity |].
  eexists. split; [reflexivity |]. repeat split.
Qed.

Lemma NoDup_map_inj {R K} (f : R -> K) l x y :
  NoDup (map f l) -> In x l -> In y l -> f x = f y -> x = y.
Proof.
  induction l as [| a l IH]; simpl; intros N Ix Iy E; [destruct Ix |].
  inversion N as [| ? ? Na Nl]; subst.
  destruct Ix as [<- | Ix], Iy as [<- | Iy].
  - reflexivity.
  - exfalso. apply Na. rewrite E. now apply in_map.
  - exfalso. apply Na. rewrite <- E. now apply in_map.
  - now apply IH.
Qed.

Lemma filter_key_unique {R} (column : R -> string) (p : R -> bool) l b :
  NoDup (map column l) -> In b l -> p b = true ->
  (forall r, p r = true -> column r = column b) ->
  filter p l = [b].
Proof.
  intros N I P K. induction l as [| a l IH]; [destruct I |].
  simpl in N. inversion N as [| ? ? Na Nl]; subst. simpl.
  destruct I as [-> | I].
  - rewrite P. f_equal.
    destruct (filter p l) as [| r l'] eqn:E; [reflexivity |].
    exfalso. apply Na.
    assert (Ir : In r (filter p l)) by (rewrite E; now left).
    apply filter_In in Ir. destruct Ir as [Ir Pr].
    rewrite <- (K r Pr). now apply in_map.
  - destruct (p a) eqn:Pa.
    + exfalso. apply Na. rewrite (K a Pa). now apply in_map.
    + now apply IH.
Qed.

Lemma map_update_unique {R} (column : R -> string) (g : R -> R) l b :
  NoDup (map column l) -> In b l ->
  map (fun r => if eq_ column (column b) r then g r else r) l
  = map (fun r => if eq_ column (column b) r then g b else r) l.
Proof.
  intros N I. apply map_ext_in. intros r Ir.
  destruct (eq_ column (column b) r) eqn:E; [| reflexivity].
  apply eq_holds in E. now rewrite (NoDup_map_inj column l r b N Ir I E).
Qed.

(** C3: the requester owns the Book [b] and sends an [updateBook] request
    for it that passes the schema, so that it supplies at least one of the
    optional fields.  The action succeeds; the Book it returns is [b] with
    each supplied field set to the supplied value, each omitted field as
    before, [id], [userId] and [createdAt] as before and [updatedAt] set
    to the clock reading; that Book is the one row stored under the id
    afterwards, and every other row of every table is unchanged. *)
Theorem updateBook_changes_supplied_fields_only :
  forall i b u ctx rt w,
    primary_keys_unique (db w) ->
    locals_user ctx = Some u ->
    In b (books (db w)) ->
    Books.userId b = App.id u ->
    updateBook.id i = Books.id b ->
    updateBook.schema i = true ->
    exists b' w',
      updateBook.action i ctx rt w = (inr (data_book (Some b')), w') /\
      b' = {| Books.id := Books.id b;
              Books.userId := Books.userId b;
              Books.title :=
                match updateBook.title i with
                | Some v => v
                | None => Books.title b
                end;
              Books.author :=
                match updateBook.author i with
                | Some v => Some v
                | None => Books.author b
                end;
              Books.sourceType :=
                match updateBook.sourceType i with
                | Some v => Some v
                | None => Books.sourceType b
                end;
              Books.sourceUrl :=
                match updateBook.sourceUrl i with
                | Some v => Some v
                | None => Books.sourceUrl b
                end;
              Books.language :=
                match updateBook.language i with
                | Some v => Some v
                | None => Books.language b
                end;
              Books.notes :=
                match updateBook.notes i with
                | Some v => Some v
                | None => Books.notes b
                end;
              Books.createdAt := Books.createdAt b;
              Books.updatedAt := clock rt (ticks w) |} /\
      books_with_id (db w') (Books.id b) = [b'] /\
      books (db w')
      = map (fun r => if eq_ Books.id (Books.id b) r then b' else r)
            (books (db w)) /\
      bookSections (db w') = bookSections (db w) /\
      sectionSummaries (db w') = sectionSummaries (db w).
Proof.
  intros i b u ctx rt w (Nb & _ & _) U Ib Bu Ei V.
  assert (Own : filter (and_ (eq_ Books.id (updateBook.id i))
                             (eq_ Books.userId (App.id u))) (books (db w))
                = [b]).
  { apply (filter_key_unique Books.id); try assumption.
    - apply and_holds. split; now apply eq_holds.
    - intros r P. apply and_holds in P. destruct P as [P _].
      apply eq_holds in P. congruence. }
  assert (Hit : filter (eq_ Books.id (updateBook.id i)) (books (db w)) = [b]).
  { apply (filter_key_unique Books.id); try assumption.
    - now apply eq_holds.
    - intros r P. apply eq_holds in P. congruence. }
  eexists _, _. split; [| split; [reflexivity |]].
  - unfold updateBook.action, updateBook.handler.
    run_handler. rewrite V, U; simpl. rewrite Own; simpl. rewrite Hit.
    reflexivity.
  - simpl. rewrite Ei.
    rewrite (map_update_unique Books.id
               (updateBook.set_ i (clock rt (ticks w))) _ b Nb Ib).
    split; [| repeat split].
    unfold books_with_id; simpl.
    apply (filter_key_unique Books.id).
    + rewrite map_map.
      erewrite map_ext; [exact Nb |].
      intros r; simpl. destruct (eq_ Books.id (Books.id b) r) eqn:E;
        [apply eq_holds in E; now rewrite E | reflexivity].
    + apply in_map_iff. exists b. split; [| exact Ib].
      assert (E : eq_ Books.id (Books.id b) b = true) by now apply eq_holds.
      now rewrite E.
    + now apply eq_holds.
    + intros r P. now apply eq_holds in P.
Qed.

Lemma updateBook_changes_supplied_fields_only_witness :
  exists w',
    updateBook.action annotate_B1 (signed_in U1) rt0 world0
    = (inr (data_book (Some (B1_annotated 1005))), w') /\
    books_with_id (db w') "B1" = [B1_annotated 1005] /\
    books (db w') = [B1_annotated 1005; B2] /\
    bookSections (db w') = [S1] /\
    sectionSummaries (db w') = [Y1; Y2].
Proof.
  destruct (updateBook_changes_supplied_fields_only
              annotate_B1 B1 U1 (signed_in U1) rt0 world0)
    as (b' & w' & E & -> & Stored & Rows & Sections & Summaries);
    try reflexivity.
  - repeat split; repeat constructor; simpl; intuition discriminate.
  - left. reflexivity.
  - exists w'. repeat split; assumption.
Defined.

(** C9: a successful [updateBookSection] returns and stores, under the
    same id, a Section with the [id], [bookId] and [createdAt] of the
    Section stored before; it changes these three columns of no row and
    does not read the clock.  A Section row has no modification timestamp,
    and no action ever alters what dates a stored Section: after any
    request, every Section either has the [id], [bookId] and [createdAt]
    of a Section stored before, or has an id that was not stored before
    (it was just created). *)
Theorem updateBookSection_keeps_identity :
  (forall i ctx rt w d w',
      primary_keys_unique (db w) ->
      updateBookSection.action i ctx rt w = (inr d, w') ->
      exists s s',
        In s (bookSections (db w)) /\
        BookSections.id s = updateBookSection.id i /\
        BookSections.bookId s = updateBookSection.bookId i /\
        d = data_section (Some s') /\
        sections_with_id (db w') (updateBookSection.id i) = [s'] /\
        BookSections.id s' = BookSections.id s /\
        BookSections.bookId s' = BookSections.bookId s /\
        BookSections.createdAt s' = BookSections.createdAt s /\
        map section_identity (bookSections (db w'))
        = map section_identity (bookSections (db w)) /\
        ticks w' = ticks w) /\
  (forall req ctx rt w s',
      In s' (bookSections (db (snd (server req ctx rt w)))) ->
      In (section_identity s') (map section_identity (bookSections (db w))) \/
      ~ In (BookSections.id s') (map BookSections.id (bookSections (db w)))).
Proof.
  split; [| exact server_sections_step].
  intros i ctx rt w d w' (_ & Ns & _) E.
  unfold updateBookSection.action, updateBookSection.handler in E.
  run_handler_in E. split_cases_in E; try discriminate.
  match goal with
  | H : first (filter (and_ (eq_ BookSections.id _) _) _) = Some ?s |- _ =>
      rename H into Fs; rename s into s0
  end.
  apply first_In, filter_In in Fs. destruct Fs as [Is Ps].
  apply and_holds in Ps. destruct Ps as [Pi Pb]. apply eq_holds in Pi, Pb.
  assert (Hit : filter (eq_ BookSections.id (updateBookSection.id i))
                       (bookSections (db w)) = [s0]).
  { apply (filter_key_unique BookSections.id); try assumption.
    - now apply eq_holds.
    - intros x P. apply eq_holds in P. congruence. }
  rewrite Hit in E. simpl in E. injection E as <- <-.
  exists s0, (updateBookSection.set_ i s0). simpl.
  split; [exact Is |]. split; [exact Pi |]. split; [exact Pb |].
  split; [reflexivity |].
  split; [| split; [reflexivity |]; split; [reflexivity |];
            split; [reflexivity |]].
  - unfold sections_with_id; simpl.
    apply (filter_key_unique BookSections.id).
    + rewrite map_key_update; [exact Ns | reflexivity].
    + apply in_map_iff. exists s0. split; [| exact Is].
      assert (X : eq_ BookSections.id (updateBookSection.id i) s0 = true)
        by now apply eq_holds.
      now rewrite X.
    + now apply eq_holds.
    + intros x P. apply eq_holds in P. simpl. congruence.
  - split; [| reflexivity].
    rewrite map_map. apply map_ext. intros x.
    now destruct (eq_ BookSections.id (updateBookSection.id i) x).
Qed.

Lemma updateBookSection_keeps_identity_witness :
  (exists s',
      fst (updateBookSection.action rename_S1 (signed_in U1) rt0 world0)
      = inr (data_section (Some s')) /\
      section_identity s' = section_identity S1 /\
      ticks (snd (updateBookSection.action rename_S1 (signed_in U1) rt0 world0))
      = ticks world0) /\
  (In (section_identity S1_renamed)
      (map section_identity (bookSections (db world0))) \/
   ~ In (BookSections.id S1_renamed)
        (map BookSections.id (bookSections (db world0)))).
Proof.
  destruct updateBookSection_keeps_identity as [Update Any].
  split.
  - edestruct (Update rename_S1 (signed_in U1) rt0 world0)
      as (s & s' & I & _ & _ & D & _ & Ei & Eb & Ec & _ & T).
    + repeat split; repeat constructor; simpl; intuition discriminate.
    + reflexivity.
    + destruct I as [<- | []].
      exists s'. split; [exact (f_equal (@inr Failure Data) D) |].
      split; [| exact T].
      unfold section_identity. now rewrite Ei, Eb, Ec.
  - apply (Any (UpdateBookSection rename_S1) (signed_in U1) rt0 world0
               S1_renamed).
    left. reflexivity.
Defined.

(** C2, at the failing input: every stored Section has a non-empty
    [rawText]; the owner sends [updateBookSection] with [rawText] set to
    the empty string; the schema accepts it, the action succeeds and the
    Section is stored with an empty [rawText]. *)
Theorem updateBookSection_stores_empty_rawText :
  Forall (fun s => BookSections.rawText s <> "") (bookSections (db world0)) /\
  updateBookSection.schema blank_S1 = true /\
  exists s' w',
    updateBookSection.action blank_S1 (signed_in U1) rt0 world0
    = (inr (data_section (Some s')), w') /\
    bookSections (db w') = [s'] /\
    BookSections.id s' = "S1" /\
    BookSections.rawText s' = "".
Proof.
  split; [repeat constructor; discriminate |].
  split; [reflexivity |].
  eexists _, _. split; [reflexivity |]. repeat split.
Qed.

(** The create path does enforce the constraint. *)
Lemma createBookSection_stores_nonempty_rawText i ctx rt w d w' :
  createBookSection.action i ctx rt w = (inr d, w') ->
  Forall (fun s => BookSections.rawText s <> "") (bookSections (db w)) ->
  Forall (fun s => BookSections.rawText s <> "") (bookSections (db w')).
Proof.
  intros E F.
  unfold createBookSection.action, createBookSection.handler in E.
  run_handler_in E. split_cases_in E; try discriminate.
  injection E as <- <-. simpl.
  apply Forall_app. split; [exact F |]. repeat constructor. simpl.
  match goal with
  | H : createBookSection.schema i = true |- _ =>
      unfold createBookSection.schema in H; apply andb_true_iff in H;
      destruct H as [_ H]
  end.
  intros Z. rewrite Z in *. discriminate.
Qed.

(** So does the update path of Books for the required [title]. *)
Lemma updateBook_keeps_title_nonempty i ctx rt w d w' :
  updateBook.action i ctx rt w = (inr d, w') ->
  Forall (fun b => Books.title b <> "") (books (db w)) ->
  Forall (fun b => Books.title b <> "") (books (db w')).
Proof.
  intros E F.
  unfold updateBook.action, updateBook.handler in E.
  run_handler_in E. split_cases_in E; try discriminate.
  injection E as <- <-. simpl.
  match goal with
  | H : updateBook.schema i = true |- _ =>
      unfold updateBook.schema in H; apply andb_true_iff in H;
      destruct H as [H _]; apply andb_true_iff in H; destruct H as [_ H]
  end.
  apply Forall_map. revert F. apply Forall_impl. intros b T.
  destruct (eq_ Books.id (updateBook.id i) b); [| exact T].
  simpl. destruct (updateBook.title i) as [t |]; simpl in *; [| exact T].
  intros Z. rewrite Z in *. discriminate.
Qed.

(** * Further properties of the actions *)

(** ** Queries *)

Ltac only_reads_tac :=
  unfold only_reads; simpl; repeat split;
  first [ exists []; split; [now rewrite app_nil_r | reflexivity]
        | eexists; split; [rewrite <- ?app_assoc; reflexivity | reflexivity] ].

Lemma first_filter_found {R} (p : R -> bool) l r :
  first (filter p l) = Some r -> In r l /\ p r = true.
Proof. intros E. apply first_In, filter_In in E. exact E. Qed.

Lemma owner_is_found st u bookId :
  owns_book st u bookId ->
  exists b,
    first (filter (and_ (eq_ Books.id bookId) (eq_ Books.userId (App.id u)))
                  (books st)) = Some b.
Proof.
  intros (b & I & Ei & Eu).
  apply (first_filter_some _ _ b I).
  apply and_holds. split; now apply eq_holds.
Qed.

(** X1: for a signed-in requester [listBooks] succeeds with the stored
    Books whose [userId] is the requester's id, in storage order and
    nothing else, and [total] is their number; it only reads. *)
Theorem listBooks_returns_the_requesters_books :
  forall u ctx rt w,
    locals_user ctx = Some u ->
    exists items w',
      listBooks.action tt ctx rt w
      = (inr (data_books items (List.length items)), w') /\
      items = filter (eq_ Books.userId (App.id u)) (books (db w)) /\
      (forall b, In b items <->
                 In b (books (db w)) /\ Books.userId b = App.id u) /\
      only_reads w w'.
Proof.
  intros u ctx rt w U. eexists _, _. split; [| split; [reflexivity |]].
  - unfold listBooks.action, listBooks.handler. run_handler.
    rewrite U. tidy. reflexivity.
  - split; [| apply (only_reads_select TBooks w)].
    intros b. rewrite filter_In, eq_holds. reflexivity.
Qed.

Lemma listBooks_returns_the_requesters_books_witness :
  exists w',
    listBooks.action tt (signed_in U2) rt0 world0
    = (inr (data_books [B2] 1), w') /\ only_reads world0 w'.
Proof.
  destruct (listBooks_returns_the_requesters_books
              U2 (signed_in U2) rt0 world0 eq_refl)
    as (items & w' & E & -> & _ & R).
  exists w'. split; [exact E | exact R].
Defined.

Lemma forallb_filter {R} (f p : R -> bool) l :
  (forall r, In r l -> p r = true -> f r = true) ->
  forallb f (filter p l) = true.
Proof.
  intros H. apply forallb_forall. intros r I.
  apply filter_In in I. destruct I as [I P]. now apply H.
Qed.

(** X2: for a signed-in requester who owns the Book, and when the client
    can hand back every Section stored under it, [listBookSections]
    succeeds with the stored Sections whose [bookId] is the requested one
    and with their number as [total]; it only reads. *)
Theorem listBookSections_returns_the_sections_of_the_book :
  forall i u ctx rt w,
    locals_user ctx = Some u ->
    listBookSections.schema i = true ->
    owns_book (db w) u (listBookSections.bookId i) ->
    (forall s, In s (bookSections (db w)) ->
               BookSections.bookId s = listBookSections.bookId i ->
               readable_section s = true) ->
    exists items w',
      listBookSections.action i ctx rt w
      = (inr (data_sections items (List.length items)), w') /\
      items = filter (eq_ BookSections.bookId (listBookSections.bookId i))
                     (bookSections (db w)) /\
      (forall s, In s items <->
                 In s (bookSections (db w)) /\
                 BookSections.bookId s = listBookSections.bookId i) /\
      only_reads w w'.
Proof.
  intros i u ctx rt w U V O Safe.
  destruct (owner_is_found _ _ _ O) as [b Fb].
  assert (Read : forallb readable_section
                   (filter (eq_ BookSections.bookId
                                (listBookSections.bookId i))
                           (bookSections (db w))) = true).
  { apply forallb_filter. intros s I P. apply eq_holds in P.
    now apply Safe. }
  eexists _, _. split; [| split; [reflexivity | split]].
  - unfold listBookSections.action, listBookSections.handler. run_handler.
    rewrite V, U; simpl. tidy. rewrite Fb; simpl. rewrite Read.
    reflexivity.
  - intros s. rewrite filter_In, eq_holds. reflexivity.
  - apply (only_reads_select2 TBooks TBookSections w).
Qed.

Lemma listBookSections_returns_the_sections_of_the_book_witness :
  exists w',
    listBookSections.action {| listBookSections.bookId := "B1" |}
                            (signed_in U1) rt0 world0
    = (inr (data_sections [S1] 1), w').
Proof.
  destruct (listBookSections_returns_the_sections_of_the_book
              {| listBookSections.bookId := "B1" |} U1 (signed_in U1)
              rt0 world0 eq_refl eq_refl)
    as (items & w' & E & -> & _).
  - exists B1. split; [left; reflexivity | split; reflexivity].
  - intros s [<- | []] _. reflexivity.
  - exists w'. exact E.
Defined.

(** X3: for a signed-in requester who owns the Book and a Section stored
    under it that the client can hand back, [listSectionSummaries]
    succeeds with the stored Summaries whose [sectionId] is the requested
    one and with their number as [total]; it only reads. *)
Theorem listSectionSummaries_returns_the_summaries_of_the_section :
  forall i u s ctx rt w,
    locals_user ctx = Some u ->
    listSectionSummaries.schema i = true ->
    owns_book (db w) u (listSectionSummaries.bookId i) ->
    In s (bookSections (db w)) ->
    BookSections.id s = listSectionSummaries.sectionId i ->
    BookSections.bookId s = listSectionSummaries.bookId i ->
    (forall x, In x (bookSections (db w)) ->
               BookSections.id x = listSectionSummaries.sectionId i ->
               BookSections.bookId x = listSectionSummaries.bookId i ->
               readable_section x = true) ->
    exists items w',
      listSectionSummaries.action i ctx rt w
      = (inr (data_summaries items (List.length items)), w') /\
      items = summaries_of (db w) (listSectionSummaries.sectionId i) /\
      (forall y, In y items <->
                 In y (sectionSummaries (db w)) /\
                 SectionSummaries.sectionId y
                 = listSectionSummaries.sectionId i) /\
      only_reads w w'.
Proof.
  intros i u s ctx rt w U V O Is Si Sb Safe.
  destruct (owner_is_found _ _ _ O) as [b Fb].
  destruct (first_filter_some
              (and_ (eq_ BookSections.id (listSectionSummaries.sectionId i))
                    (eq_ BookSections.bookId (listSectionSummaries.bookId i)))
              (bookSections (db w)) s Is) as [s0 Fs].
  { apply and_holds. split; now apply eq_holds. }
  assert (Read : forallb readable_section
                   (filter
                      (and_ (eq_ BookSections.id
                                 (listSectionSummaries.sectionId i))
                            (eq_ BookSections.bookId
                                 (listSectionSummaries.bookId i)))
                      (bookSections (db w))) = true).
  { apply forallb_filter. intros x I P. apply and_holds in P.
    destruct P as [Pi Pb]. apply eq_holds in Pi, Pb. now apply Safe. }
  eexists _, _. split; [| split; [reflexivity | split]].
  - unfold listSectionSummaries.action, listSectionSummaries.handler.
    run_handler. rewrite V, U; simpl. tidy. rewrite Fb; simpl.
    rewrite Read; simpl. rewrite Fs. tidy.
    reflexivity.
  - intros y. unfold summaries_of. rewrite filter_In, eq_holds. reflexivity.
  - only_reads_tac.
Qed.

Lemma listSectionSummaries_returns_the_summaries_of_the_section_witness :
  exists w',
    listSectionSummaries.action
      {| listSectionSummaries.sectionId := "S1";
         listSectionSummaries.bookId := "B1" |}
      (signed_in U1) rt0 world0
    = (inr (data_summaries [Y1; Y2] 2), w').
Proof.
  destruct (listSectionSummaries_returns_the_summaries_of_the_section
              {| listSectionSummaries.sectionId := "S1";
                 listSectionSummaries.bookId := "B1" |}
              U1 S1 (signed_in U1) rt0 world0 eq_refl eq_refl)
    as (items & w' & E & -> & _); try reflexivity.
  - exists B1. split; [left; reflexivity | split; reflexivity].
  - left. reflexivity.
  - intros x [<- | []] _ _. reflexivity.
  - exists w'. exact E.
Defined.

Lemma list_result_depends_on_tables req ctx rt rt2 w w2 :
  is_list req = true ->
  db w2 = db w ->
  fst (server req ctx rt2 w2) = fst (server req ctx rt w).
Proof.
  intros L E.
  destruct req as [i|i|i|i|i|i|i|i|i]; try discriminate; simpl;
    match goal with
    | |- fst (?a _ _ _ _) = _ => unfold a
    end;
    match goal with
    | |- context [defineAction _ ?h] => unfold h
    end;
    run_handler;
    repeat (rewrite ?E;
            match goal with
            | |- context [match ?c with _ => _ end] =>
                lazymatch c with
                | context [match _ with _ => _ end] => fail
                | _ => destruct c eqn:?; simpl
                end
            end);
    rewrite ?E; reflexivity.
Qed.

(** X4: the three list actions never write: whatever they return, the
    tables are as before and only reads were issued.  What they return
    depends on the tables alone, so a list request repeated right away
    returns the same items and the same total. *)
Theorem list_requests_only_read :
  forall req ctx rt w,
    is_list req = true ->
    only_reads w (snd (server req ctx rt w)) /\
    fst (server req ctx rt (snd (server req ctx rt w)))
    = fst (server req ctx rt w).
Proof.
  intros req ctx rt w L.
  assert (R : only_reads w (snd (server req ctx rt w))).
  { destruct req as [i|i|i|i|i|i|i|i|i]; try discriminate; simpl;
      enter_action ctx rt w; only_reads_tac. }
  split; [exact R |].
  apply list_result_depends_on_tables; [exact L | apply R].
Qed.

Lemma list_requests_only_read_witness :
  let req := ListSectionSummaries
               {| listSectionSummaries.sectionId := "S1";
                  listSectionSummaries.bookId := "B1" |} in
  fst (server req (signed_in U1) rt0 world0)
  = inr (data_summaries [Y1; Y2] 2) /\
  fst (server req (signed_in U1) rt0
              (snd (server req (signed_in U1) rt0 world0)))
  = fst (server req (signed_in U1) rt0 world0).
Proof.
  split; [reflexivity |].
  apply (list_requests_only_read
           (ListSectionSummaries
              {| listSectionSummaries.sectionId := "S1";
                 listSectionSummaries.bookId := "B1" |})
           (signed_in U1) rt0 world0 eq_refl).
Defined.

(** X5: a request that fails with UNAUTHORIZED, NOT_FOUND or VALIDATION
    has changed no table, has issued no write and has read neither the
    clock nor the identifier source: every such failure is raised before
    the first write of its handler. *)
Theorem refused_request_changes_nothing :
  forall req ctx rt w e,
    fst (server req ctx rt w) = inl e ->
    e <> CONSTRAINT ->
    only_reads w (snd (server req ctx rt w)).
Proof.
  intros req ctx rt w e.
  destruct req as [i|i|i|i|i|i|i|i|i]; simpl; enter_action ctx rt w;
    intros F N; try discriminate F;
    try (injection F as <-; now contradiction N);
    only_reads_tac.
Qed.

Lemma refused_request_changes_nothing_witness :
  fst (server (DeleteBookSection drop_S1) (signed_in U2) rt0 world0)
  = inl book_not_found /\
  only_reads world0
    (snd (server (DeleteBookSection drop_S1) (signed_in U2) rt0 world0)).
Proof.
  split; [reflexivity |].
  apply (refused_request_changes_nothing
           (DeleteBookSection drop_S1) (signed_in U2) rt0 world0
           book_not_found eq_refl).
  discriminate.
Defined.

(** ** Invariants of the store *)

Lemma serve_invariant (P : Store -> Prop) :
  (forall req ctx rt w, P (db w) -> P (db (snd (server req ctx rt w)))) ->
  forall rt calls w, P (db w) -> P (db (snd (serve rt calls w))).
Proof.
  intros Step rt calls.
  induction calls as [| [req ctx] rest IH]; simpl; intros w H; [exact H |].
  assert (H1 := Step req ctx rt w H).
  destruct (server req ctx rt w) as [r w1]. simpl in H1.
  assert (H2 := IH w1 H1).
  destruct (serve rt rest w1) as [h w2]. exact H2.
Qed.


Ltac found :=
  repeat match goal with
         | H : first (filter _ _) = Some _ |- _ =>
             apply first_filter_found in H; destruct H as [? H]
         | H : and_ _ _ _ = true |- _ =>
             apply and_holds in H; destruct H
         | H : eq_ _ _ _ = true |- _ => apply eq_holds in H
         end.


(** X6: the actions keep the primary keys unique: if no two rows of a
    table share an [id] before a session, none do after it, whatever the
    requests and whoever sends them. *)
Theorem sessions_keep_primary_keys_unique :
  forall rt calls w,
    primary_keys_unique (db w) ->
    primary_keys_unique (db (snd (serve rt calls w))).
Proof.
  intros rt calls w. apply serve_invariant.
  intros req ctx rt1 w1. apply server_preserves_primary_keys.
Qed.

Lemma sessions_keep_primary_keys_unique_witness :
  primary_keys_unique (db boot) /\
  primary_keys_unique (db (snd (serve rt0 session boot))).
Proof.
  assert (K : primary_keys_unique (db boot))
    by (repeat split; constructor).
  split; [exact K |].
  apply (sessions_keep_primary_keys_unique rt0 session boot K).
Defined.



Lemma min1_nonempty s : min1 s = true -> s <> "".
Proof. intros M ->. discriminate M. Qed.

Lemma Forall_filter_keeps {R} (P : R -> Prop) (p : R -> bool) l :
  Forall P l -> Forall P (filter p l).
Proof.
  rewrite !Forall_forall. intros H x I. apply filter_In in I. now apply H.
Qed.

Lemma server_keeps_rows_well_formed req ctx rt w :
  rows_well_formed (db w) ->
  rows_well_formed (db (snd (server req ctx rt w))).
Proof.
  unfold rows_well_formed. intros (Hb & Hs & Hy).
  destruct req as [i|i|i|i|i|i|i|i|i]; simpl; enter_action ctx rt w;
    try (repeat split; assumption);
    repeat match goal with
           | V : createBook.schema _ = true |- _ =>
               apply min1_nonempty in V
           | V : updateBook.schema _ = true |- _ =>
               unfold updateBook.schema in V; apply andb_true_iff in V;
               destruct V as [V _]; apply andb_true_iff in V;
               destruct V as [_ V]
           | V : createSectionSummary.schema _ = true |- _ =>
               unfold createSectionSummary.schema in V;
               apply andb_true_iff in V; destruct V as [_ V];
               apply min1_nonempty in V
           end;
    (split; [| split]); try assumption.
  all: try solve [now apply Forall_filter_keeps].
  all: try solve [apply Forall_app; split; [assumption |];
                  repeat constructor; simpl;
                  first [assumption | discriminate]].
  - (* updateBook *)
    apply Forall_map. revert Hb. apply Forall_impl. intros b N.
    destruct (eq_ Books.id (updateBook.id i) b); [| exact N]. simpl.
    destruct (updateBook.title i) as [t |]; simpl in *;
      [now apply min1_nonempty | exact N].
  - (* updateBookSection, handed back *)
    apply Forall_map. revert Hs. apply Forall_impl. intros s N.
    destruct (eq_ BookSections.id (updateBookSection.id i) s); [| exact N].
    simpl. destruct (updateBookSection.orderIndex i); simpl;
      [discriminate | exact N].
  - (* updateBookSection, not handed back *)
    apply Forall_map. revert Hs. apply Forall_impl. intros s N.
    destruct (eq_ BookSections.id (updateBookSection.id i) s); [| exact N].
    simpl. destruct (updateBookSection.orderIndex i); simpl;
      [discriminate | exact N].
Qed.

(** X8: what the schemas guard stays true of the store: if every Book has
    a non-empty [title], every Summary a non-empty [summaryText] and every
    Section an [orderIndex] (the column is optional, but [createBookSection]
    always stores one and [updateBookSection] cannot clear it) before a
    session, the same holds after it. *)
Theorem sessions_keep_rows_well_formed :
  forall rt calls w,
    rows_well_formed (db w) ->
    rows_well_formed (db (snd (serve rt calls w))).
Proof.
  intros rt calls w. apply serve_invariant.
  intros req ctx rt1 w1. apply server_keeps_rows_well_formed.
Qed.

Lemma sessions_keep_rows_well_formed_witness :
  rows_well_formed (db boot) /\
  rows_well_formed (db (snd (serve rt0 session boot))).
Proof.
  assert (K : rows_well_formed (db boot)) by (repeat split; constructor).
  split; [exact K |].
  apply (sessions_keep_rows_well_formed rt0 session boot K).
Defined.

(** ** Who may do what *)

(** X9: a request succeeds only if it passed its schema and was sent by a
    signed-in user; if it names a book id, that user owns a stored Book of
    that id; if it names a section id as well, a Section of that id is
    stored under that Book. *)
Theorem successful_request_was_authorized :
  forall req ctx rt w d w',
    server req ctx rt w = (inr d, w') ->
    input_ok req = true /\
    exists u,
      locals_user ctx = Some u /\
      (forall bookId, target_book req = Some bookId ->
                      owns_book (db w) u bookId) /\
      (forall sectionId bookId,
          target_section req = Some (sectionId, bookId) ->
          exists s, In s (bookSections (db w)) /\
                    BookSections.id s = sectionId /\
                    BookSections.bookId s = bookId).
Proof.
  intros req ctx rt w d w' E.
  destruct req as [i|i|i|i|i|i|i|i|i]; simpl in E;
    match type of E with ?a _ _ _ _ = _ => unfold a in E end;
    match type of E with
    | context [defineAction _ ?h] => unfold h in E
    end;
    run_handler_in E; split_cases_in E; try discriminate E.
  all: split; [first [assumption | reflexivity] |].
  all: match goal with
       | U : locals_user _ = Some ?u |- _ =>
           exists u; split; [first [exact U | reflexivity] |]
       end.
  all: found; simpl.
  all: split; [first [intros bid [= <-] | intros bid [=]] |
               first [intros sid bid [= <- <-] | intros sid bid [=]]].
  all: try (eexists; repeat split; eassumption).
Qed.

Lemma successful_request_was_authorized_witness :
  owns_book (db world_no_summaries) U1 "B1" /\
  exists s, In s (bookSections (db world_no_summaries)) /\
            BookSections.id s = "S1" /\ BookSections.bookId s = "B1".
Proof.
  destruct (successful_request_was_authorized
              (DeleteBookSection drop_S1) (signed_in U1) rt0
              world_no_summaries no_data
              (snd (server (DeleteBookSection drop_S1) (signed_in U1)
                           rt0 world_no_summaries))
              eq_refl)
    as (_ & u & U & B & S).
  injection U as <-.
  split; [apply B; reflexivity | apply S; reflexivity].
Defined.

Lemma in_map_update {R} (p : R -> bool) (g : R -> R) l y :
  In y (map (fun r => if p r then g r else r) l) <->
  exists x, In x l /\ y = (if p x then g x else x).
Proof.
  rewrite in_map_iff. split; intros (x & A & B); exists x; intuition.
Qed.

Lemma foreign_books_untouched req u ctx rt w b :
  primary_keys_unique (db w) ->
  locals_user ctx = Some u ->
  Books.userId b <> App.id u ->
  In b (books (db (snd (server req ctx rt w)))) <-> In b (books (db w)).
Proof.
  intros (Nb & _ & _) U F.
  destruct req as [i|i|i|i|i|i|i|i|i]; simpl; enter_action ctx rt w;
    try reflexivity.
  - (* createBook *)
    injection U as <-.
    rewrite in_app_iff. simpl. split; [| tauto].
    intros [I | [<- | []]]; [exact I | now contradiction F].
  - (* updateBook *)
    injection U as <-. found.
    rewrite in_map_update. split.
    + intros (x & Ix & ->).
      destruct (eq_ Books.id (updateBook.id i) x) eqn:K; [| exact Ix].
      exfalso. apply eq_holds in K. apply F. simpl.
      match goal with
      | I0 : In ?r (books (db w)) |- _ =>
          rewrite (NoDup_map_inj Books.id _ x r Nb Ix I0) by congruence
      end.
      assumption.
    + intros Ib. exists b. split; [exact Ib |].
      destruct (eq_ Books.id (updateBook.id i) b) eqn:K; [| reflexivity].
      exfalso. apply eq_holds in K. apply F.
      match goal with
      | I0 : In ?r (books (db w)) |- _ =>
          rewrite (NoDup_map_inj Books.id _ b r Nb Ib I0) by congruence
      end.
      assumption.
Qed.

Lemma foreign_sections_untouched req u ctx rt w s :
  primary_keys_unique (db w) ->
  locals_user ctx = Some u ->
  foreign_book (db w) u (BookSections.bookId s) ->
  In s (bookSections (db (snd (server req ctx rt w)))) <->
  In s (bookSections (db w)).
Proof.
  intros (_ & Ns & _) U F.
  destruct req as [i|i|i|i|i|i|i|i|i]; simpl; enter_action ctx rt w;
    try reflexivity; injection U as <-; found.
  (* createBookSection *)
  all: try solve [rewrite in_app_iff; simpl; split; [| tauto];
                  intros [I | [<- | []]]; [exact I |];
                  exfalso; simpl in F; eapply F; eassumption].
  (* deleteBookSection *)
  all: try solve [rewrite filter_In; split; [tauto |]; intros Ix;
                  split; [exact Ix |];
                  apply eq_fails; intros K;
                  match goal with
                  | Ib : In ?r (books _),
                    Is : In ?s0 (bookSections _) |- _ =>
                      apply (F r Ib);
                      [ rewrite (NoDup_map_inj BookSections.id _ s s0
                                               Ns Ix Is)
                          by congruence; congruence
                      | assumption ]
                  end].
  (* updateBookSection *)
  all: match goal with
       | Ib : In ?r (books _), Is : In ?s0 (bookSections _) |- _ =>
           assert (Mine : forall x, In x (bookSections (db w)) ->
                     BookSections.id x = updateBookSection.id i ->
                     Books.id r = BookSections.bookId x)
             by (intros x Ix Ex;
                 rewrite (NoDup_map_inj BookSections.id _ x s0 Ns Ix Is)
                   by congruence;
                 congruence)
       end;
    rewrite in_map_update; split;
    [ intros (x & Ix & ->);
      destruct (eq_ BookSections.id (updateBookSection.id i) x) eqn:K;
      [| exact Ix];
      exfalso; apply eq_holds in K; simpl in F;
      eapply F; [eassumption | now apply Mine | eassumption]
    | intros Ix; exists s; split; [exact Ix |];
      destruct (eq_ BookSections.id (updateBookSection.id i) s) eqn:K;
      [| reflexivity];
      exfalso; apply eq_holds in K;
      eapply F; [eassumption | now apply Mine | eassumption] ].
Qed.

Lemma foreign_summaries_untouched req u ctx rt w y :
  locals_user ctx = Some u ->
  (forall s, In s (bookSections (db w)) ->
             BookSections.id s = SectionSummaries.sectionId y ->
             foreign_book (db w) u (BookSections.bookId s)) ->
  In y (sectionSummaries (db (snd (server req ctx rt w)))) <->
  In y (sectionSummaries (db w)).
Proof.
  intros U F. unfold foreign_book in F.
  destruct req as [i|i|i|i|i|i|i|i|i]; simpl; enter_action ctx rt w;
    try reflexivity; injection U as <-; found.
  (* deleteBookSection *)
  all: try solve [rewrite filter_In; split; [tauto |]; intros Iy;
                  split; [exact Iy |];
                  apply eq_fails; intros K;
                  match goal with
                  | Ib : In ?r (books _),
                    Is : In ?s0 (bookSections _) |- _ =>
                      apply (F s0 Is) with (b := r);
                      [congruence | exact Ib | congruence | assumption]
                  end].
  (* createSectionSummary *)
  all: rewrite in_app_iff; simpl; split; [| tauto];
    intros [I | [<- | []]]; [exact I |]; exfalso; simpl in F;
    match goal with
    | Ib : In ?r (books _), Is : In ?s0 (bookSections _) |- _ =>
        apply (F s0 Is) with (b := r);
        [assumption | exact Ib | congruence | assumption]
    end.
Qed.

(** X10: a request changes no row of another user.  In a store with
    unique primary keys and for a signed-in requester, a Book of another
    user, a Section whose Book is not the requester's and a Summary whose
    Section hangs off no Book of the requester are stored after the
    request exactly if they were stored before it. *)
Theorem request_leaves_foreign_rows_alone :
  forall req u ctx rt w,
    primary_keys_unique (db w) ->
    locals_user ctx = Some u ->
    (forall b,
        Books.userId b <> App.id u ->
        In b (books (db (snd (server req ctx rt w)))) <->
        In b (books (db w))) /\
    (forall s,
        foreign_book (db w) u (BookSections.bookId s) ->
        In s (bookSections (db (snd (server req ctx rt w)))) <->
        In s (bookSections (db w))) /\
    (forall y,
        (forall s, In s (bookSections (db w)) ->
                   BookSections.id s = SectionSummaries.sectionId y ->
                   foreign_book (db w) u (BookSections.bookId s)) ->
        In y (sectionSummaries (db (snd (server req ctx rt w)))) <->
        In y (sectionSummaries (db w))).
Proof.
  intros req u ctx rt w K U. split; [| split].
  - intros b F. now apply foreign_books_untouched with (u := u).
  - intros s F. now apply foreign_sections_untouched with (u := u).
  - intros y F. now apply foreign_summaries_untouched with (u := u).
Qed.

Lemma request_leaves_foreign_rows_alone_witness :
  let w' := snd (server (UpdateBook annotate_B2) (signed_in U2) rt0 world0) in
  ~ In B2 (books (db w')) /\
  In B1 (books (db w')) /\
  In S1 (bookSections (db w')) /\
  In Y1 (sectionSummaries (db w')).
Proof.
  destruct (request_leaves_foreign_rows_alone
              (UpdateBook annotate_B2) U2 (signed_in U2) rt0 world0)
    as (Bk & Sn & Sm).
  - repeat split; repeat constructor; simpl; intuition discriminate.
  - reflexivity.
  - split; [| split; [| split]].
    + simpl. intros [E | [E | []]]; discriminate E.
    + apply Bk; [discriminate | left; reflexivity].
    + apply Sn; [| left; reflexivity].
      intros b [<- | [<- | []]]; simpl; intros E; discriminate.
    + apply Sm; [| left; reflexivity].
      intros s [<- | []] _ b [<- | [<- | []]]; simpl; intros E;
        discriminate.
Defined.

Lemma filter_none {R} (p : R -> bool) l :
  (forall r, In r l -> p r = false) -> filter p l = [].
Proof.
  intros H. destruct (filter p l) as [| x rest] eqn:E; [reflexivity |].
  assert (I : In x (filter p l)) by (rewrite E; now left).
  apply filter_In in I. destruct I as [I P].
  rewrite (H x I) in P. discriminate.
Qed.

Lemma getOwnedSection_misses sectionId bookId u rt w :
  owns_book (db w) u bookId ->
  (forall s, In s (bookSections (db w)) -> BookSections.id s = sectionId ->
             BookSections.bookId s <> bookId) ->
  getOwnedSection sectionId bookId (App.id u) rt w
  = (inl section_not_found,
     logged (SELECT TBookSections) (db w) (logged (SELECT TBooks) (db w) w)).
Proof.
  intros O Miss. rewrite getOwnedSection_run.
  destruct (owner_is_found _ _ _ O) as [b ->].
  rewrite filter_none; [reflexivity |].
  intros s I. apply not_true_is_false. intros P.
  apply and_holds in P. destruct P as [Pi Pb]. apply eq_holds in Pi, Pb.
  now apply (Miss s I Pi).
Qed.

Lemma unlisted_section_is_not_found req sectionId bookId u ctx rt w :
  target_section req = Some (sectionId, bookId) ->
  input_ok req = true ->
  locals_user ctx = Some u ->
  owns_book (db w) u bookId ->
  (forall s, In s (bookSections (db w)) -> BookSections.id s = sectionId ->
             BookSections.bookId s <> bookId) ->
  server req ctx rt w
  = (inl section_not_found,
     logged (SELECT TBookSections) (db w) (logged (SELECT TBooks) (db w) w)).
Proof.
  intros T V U O Miss. rewrite server_accepts by exact V.
  destruct req; simpl in T; try discriminate; injection T as <- <-; simpl;
    enter_handler U; apply bind_fail; now apply getOwnedSection_misses.
Qed.

(** X11: a Section is reachable only through its own Book.  When the
    requester owns the Book named in the request but no Section of the
    requested id is stored under that Book, the four actions that address
    a Section fail with NOT_FOUND "Section not found." and only read,
    even if the Section exists under another Book of the same user. *)
Theorem section_is_found_only_under_its_book :
  forall req sectionId bookId u ctx rt w,
    target_section req = Some (sectionId, bookId) ->
    input_ok req = true ->
    locals_user ctx = Some u ->
    owns_book (db w) u bookId ->
    (forall s, In s (bookSections (db w)) -> BookSections.id s = sectionId ->
               BookSections.bookId s <> bookId) ->
    exists w',
      server req ctx rt w = (inl section_not_found, w') /\ only_reads w w'.
Proof.
  intros req sectionId bookId u ctx rt w T V U O Miss.
  eexists. split.
  - now apply (unlisted_section_is_not_found req sectionId bookId u).
  - apply (only_reads_select2 TBooks TBookSections w).
Qed.

Lemma section_is_found_only_under_its_book_witness :
  owns_book (db world_two_books) U1 "B3" /\
  In S1 (bookSections (db world_two_books)) /\
  exists w',
    server (ListSectionSummaries (summaries_of_S1_under "B3"))
           (signed_in U1) rt0 world_two_books
    = (inl section_not_found, w').
Proof.
  assert (O : owns_book (db world_two_books) U1 "B3").
  { exists B3. split; [right; right; left; reflexivity |].
    split; reflexivity. }
  split; [exact O | split; [left; reflexivity |]].
  destruct (section_is_found_only_under_its_book
              (ListSectionSummaries (summaries_of_S1_under "B3"))
              "S1" "B3" U1 (signed_in U1) rt0 world_two_books
              eq_refl eq_refl eq_refl O) as (w' & E & _).
  - intros s [<- | []] _. discriminate.
  - exists w'. exact E.
Defined.



(** ** Creating, then listing *)

Lemma min1_iff s : min1 s = true <-> s <> "".
Proof.
  split; [apply min1_nonempty |].
  destruct s; [intros N; now contradiction N | reflexivity].
Qed.

Lemma existsb_eq_iff {R} (column : R -> string) v l :
  existsb (eq_ column v) l = false <-> ~ In v (map column l).
Proof.
  split; [apply existsb_eq_false |].
  intros N. apply not_true_is_false. intros X. apply N.
  apply existsb_exists in X. destruct X as (x & I & E).
  apply eq_holds in E. rewrite <- E. now apply in_map.
Qed.

Lemma length_snoc {R} (l : list R) x :
  List.length (l ++ [x]) = S (List.length l).
Proof. rewrite length_app. simpl. apply Nat.add_1_r. Qed.

Lemma filter_snoc_hit {R} (p : R -> bool) l x :
  p x = true -> filter p (l ++ [x]) = filter p l ++ [x].
Proof. intros P. rewrite filter_app. simpl. now rewrite P. Qed.

Lemma filter_snoc_miss {R} (p : R -> bool) l x :
  p x = false -> filter p (l ++ [x]) = filter p l.
Proof. intros P. rewrite filter_app. simpl. rewrite P. apply app_nil_r. Qed.

Lemma eq_refl_holds {R} (column : R -> string) r :
  eq_ column (column r) r = true.
Proof. now apply eq_holds. Qed.

(** X13: [createBook] succeeds exactly when a user is signed in, the
    title is not empty and the identifier drawn for the Book is not the id
    of a stored Book. *)
Theorem createBook_succeeds_iff :
  forall i ctx rt w,
    (exists d w1, createBook.action i ctx rt w = (inr d, w1)) <->
    (exists u, locals_user ctx = Some u) /\
    createBook.title i <> "" /\
    ~ In (randomUUID rt (draws w)) (map Books.id (books (db w))).
Proof.
  intros i ctx rt w. split.
  - intros (d & w1 & E).
    unfold createBook.action, createBook.handler in E.
    run_handler_in E. split_cases_in E; try discriminate E.
    split; [eexists; reflexivity |].
    split; [now apply min1_iff | now apply existsb_eq_iff].
  - intros ((u & U) & T & Fresh).
    apply min1_iff in T. apply existsb_eq_iff in Fresh.
    eexists _, _.
    unfold createBook.action, createBook.handler. run_handler.
    unfold createBook.schema. rewrite T, U; simpl. rewrite Fresh.
    reflexivity.
Qed.

(** X14: the Book a successful [createBook] returns has the drawn
    identifier, the requester's id as [userId], the six supplied fields
    exactly as supplied (an omitted one is NULL) and the one clock reading
    in both timestamps; it is appended to the Books and the other tables
    are left alone; the user's next [listBooks] returns the Books listed
    before followed by the new one, and the listing of any user with
    another id is what it was. *)
Theorem createBook_then_listBooks :
  forall i u ctx rt w d w1 rt2,
    locals_user ctx = Some u ->
    createBook.action i ctx rt w = (inr d, w1) ->
    exists b,
      d = data_book (Some b) /\
      b = {| Books.id := randomUUID rt (draws w);
             Books.userId := App.id u;
             Books.title := createBook.title i;
             Books.author := createBook.author i;
             Books.sourceType := createBook.sourceType i;
             Books.sourceUrl := createBook.sourceUrl i;
             Books.language := createBook.language i;
             Books.notes := createBook.notes i;
             Books.createdAt := clock rt (ticks w);
             Books.updatedAt := clock rt (ticks w) |} /\
      books (db w1) = books (db w) ++ [b] /\
      bookSections (db w1) = bookSections (db w) /\
      sectionSummaries (db w1) = sectionSummaries (db w) /\
      (let mine := filter (eq_ Books.userId (App.id u)) (books (db w)) in
       fst (listBooks.action tt ctx rt2 w1)
       = inr (data_books (mine ++ [b]) (S (List.length mine)))) /\
      (forall u2 ctx2,
          locals_user ctx2 = Some u2 ->
          App.id u2 <> App.id u ->
          fst (listBooks.action tt ctx2 rt2 w1)
          = fst (listBooks.action tt ctx2 rt2 w)).
Proof.
  intros i u ctx rt w d w1 rt2 U E.
  unfold createBook.action, createBook.handler in E.
  run_handler_in E. rewrite U in E. simpl in E.
  split_cases_in E; try discriminate E.
  injection E as <- <-. eexists.
  split; [reflexivity |]. split; [reflexivity |]. split; [reflexivity |].
  split; [reflexivity |]. split; [reflexivity |]. split.
  - unfold listBooks.action, listBooks.handler. run_handler.
    rewrite U; simpl. tidy.
    rewrite filter_snoc_hit by (now apply eq_holds).
    now rewrite length_snoc.
  - intros u2 ctx2 U2 D.
    unfold listBooks.action, listBooks.handler. run_handler.
    rewrite U2; simpl. tidy.
    rewrite filter_snoc_miss; [reflexivity |].
    apply not_true_is_false. intros P. apply eq_holds in P. simpl in P.
    congruence.
Qed.

Lemma createBook_then_listBooks_witness :
  let w1 := snd (createBook.action add_moby_dick (signed_in U2) rt0 world0) in
  exists b,
    fst (createBook.action add_moby_dick (signed_in U2) rt0 world0)
    = inr (data_book (Some b)) /\
    Books.id b = "N5" /\
    Books.author b = Some "Herman Melville" /\
    Books.sourceUrl b = None /\
    fst (listBooks.action tt (signed_in U2) rt0 w1)
    = inr (data_books [B2; b] 2) /\
    fst (listBooks.action tt (signed_in U1) rt0 w1)
    = inr (data_books [B1] 1).
Proof.
  edestruct (createBook_then_listBooks
               add_moby_dick U2 (signed_in U2) rt0 world0)
    as (b & D & Eb & _ & _ & _ & Mine & Others);
    [reflexivity | reflexivity |].
  exists b. split; [exact (f_equal (@inr Failure Data) D) |].
  split; [now rewrite Eb |]. split; [now rewrite Eb |].
  split; [now rewrite Eb |]. split; [exact Mine |].
  transitivity (fst (listBooks.action tt (signed_in U1) rt0 world0));
    [| reflexivity].
  apply (Others U1 (signed_in U1) eq_refl). discriminate.
Defined.

(** X15: the Section a successful [createBookSection] returns has the
    drawn identifier, the requested [bookId], the supplied fields with
    [orderIndex] defaulting to 1, a non-empty [rawText] and the clock
    reading as [createdAt]; it is appended to the Sections and the other
    tables are left alone.  When the client can hand back the Sections
    stored under that Book before, the requester's next
    [listBookSections] of the Book returns the Sections listed before
    followed by the new one. *)
Theorem createBookSection_then_listBookSections :
  forall i ctx rt w d w1 rt2,
    createBookSection.action i ctx rt w = (inr d, w1) ->
    exists s,
      d = data_section (Some s) /\
      s = {| BookSections.id := randomUUID rt (draws w);
             BookSections.bookId := createBookSection.bookId i;
             BookSections.sectionType := createBookSection.sectionType i;
             BookSections.orderIndex :=
               Some (match createBookSection.orderIndex i with
                     | Some n => n
                     | None => 1%Z
                     end);
             BookSections.title := createBookSection.title i;
             BookSections.rawText := createBookSection.rawText i;
             BookSections.createdAt := clock rt (ticks w) |} /\
      BookSections.rawText s <> "" /\
      bookSections (db w1) = bookSections (db w) ++ [s] /\
      books (db w1) = books (db w) /\
      sectionSummaries (db w1) = sectionSummaries (db w) /\
      ((forall x, In x (bookSections (db w)) ->
                  BookSections.bookId x = createBookSection.bookId i ->
                  readable_section x = true) ->
       let before :=
         filter (eq_ BookSections.bookId (createBookSection.bookId i))
                (bookSections (db w)) in
       fst (listBookSections.action
              {| listBookSections.bookId := createBookSection.bookId i |}
              ctx rt2 w1)
       = inr (data_sections (before ++ [s]) (S (List.length before)))).
Proof.
  intros i ctx rt w d w1 rt2 E.
  unfold createBookSection.action, createBookSection.handler in E.
  run_handler_in E. split_cases_in E; try discriminate E.
  injection E as <- <-.
  match goal with
  | V : createBookSection.schema i = true |- _ =>
      unfold createBookSection.schema in V; apply andb_true_iff in V;
      destruct V as [Vb Vr]
  end.
  eexists.
  split; [reflexivity |]. split; [reflexivity |].
  split; [now apply min1_nonempty |].
  split; [reflexivity |]. split; [reflexivity |]. split; [reflexivity |].
  intros Safe.
  unfold listBookSections.action, listBookSections.handler. run_handler.
  unfold listBookSections.schema; simpl. rewrite Vb; simpl.
  match goal with
  | U : locals_user ctx = Some _ |- _ => rewrite U; simpl
  end.
  tidy.
  match goal with
  | F : first (filter _ (books _)) = Some _ |- _ => rewrite F; simpl
  end.
  rewrite filter_snoc_hit by (now apply eq_holds).
  rewrite forallb_app, forallb_filter; simpl.
  - match goal with
    | R : readable_section _ = true |- _ => rewrite R; simpl
    end.
    now rewrite length_snoc.
  - intros x I P. apply eq_holds in P. now apply Safe.
Qed.

Lemma createBookSection_then_listBookSections_witness :
  let w1 := snd (createBookSection.action add_chapter_2 (signed_in U1)
                                          rt0 world0) in
  exists s,
    fst (createBookSection.action add_chapter_2 (signed_in U1) rt0 world0)
    = inr (data_section (Some s)) /\
    bookSections (db w1) = [S1; s] /\
    fst (listBookSections.action {| listBookSections.bookId := "B1" |}
                                 (signed_in U1) rt0 w1)
    = inr (data_sections [S1; s] 2).
Proof.
  edestruct (createBookSection_then_listBookSections
               add_chapter_2 (signed_in U1) rt0 world0)
    as (s & D & _ & _ & A & _ & _ & L).
  - reflexivity.
  - exists s. split; [exact (f_equal (@inr Failure Data) D) |].
    split; [exact A |].
    apply L. intros x [<- | []] _. reflexivity.
Defined.

(** X16: the Summary a successful [createSectionSummary] returns has the
    drawn identifier, the requested [sectionId], the supplied [variant],
    [language] and non-empty [summaryText] and the clock reading as
    [createdAt]; it is appended to the Summaries and the other tables are
    left alone; the requester's next [listSectionSummaries] of that
    Section returns the Summaries listed before followed by the new one.
    Nothing prevents two Summaries of one Section with the same variant
    and language. *)
Theorem createSectionSummary_then_listSectionSummaries :
  forall i ctx rt w d w1 rt2,
    createSectionSummary.action i ctx rt w = (inr d, w1) ->
    exists y,
      d = data_summary (Some y) /\
      y = {| SectionSummaries.id := randomUUID rt (draws w);
             SectionSummaries.sectionId := createSectionSummary.sectionId i;
             SectionSummaries.variant := createSectionSummary.variant i;
             SectionSummaries.language := createSectionSummary.language i;
             SectionSummaries.summaryText :=
               createSectionSummary.summaryText i;
             SectionSummaries.createdAt := clock rt (ticks w) |} /\
      SectionSummaries.summaryText y <> "" /\
      sectionSummaries (db w1) = sectionSummaries (db w) ++ [y] /\
      books (db w1) = books (db w) /\
      bookSections (db w1) = bookSections (db w) /\
      (let before :=
         summaries_of (db w) (createSectionSummary.sectionId i) in
       fst (listSectionSummaries.action
              {| listSectionSummaries.sectionId :=
                   createSectionSummary.sectionId i;
                 listSectionSummaries.bookId :=
                   createSectionSummary.bookId i |}
              ctx rt2 w1)
       = inr (data_summaries (before ++ [y]) (S (List.length before)))).
Proof.
  intros i ctx rt w d w1 rt2 E.
  unfold createSectionSummary.action, createSectionSummary.handler in E.
  run_handler_in E. split_cases_in E; try discriminate E.
  injection E as <- <-.
  match goal with
  | V : createSectionSummary.schema i = true |- _ =>
      unfold createSectionSummary.schema in V; apply andb_true_iff in V;
      destruct V as [V Vt]; apply andb_true_iff in V; destruct V as [Vs Vb]
  end.
  eexists.
  split; [reflexivity |]. split; [reflexivity |].
  split; [now apply min1_nonempty |].
  split; [reflexivity |]. split; [reflexivity |]. split; [reflexivity |].
  unfold listSectionSummaries.action, listSectionSummaries.handler.
  run_handler.
  unfold listSectionSummaries.schema; simpl. rewrite Vs, Vb; simpl.
  replay.
  unfold summaries_of.
  rewrite filter_snoc_hit by (now apply eq_holds).
  now rewrite length_snoc.
Qed.

Lemma createSectionSummary_then_listSectionSummaries_witness :
  let again :=
    {| createSectionSummary.sectionId := "S1";
       createSectionSummary.bookId := "B1";
       createSectionSummary.variant := Some "short";
       createSectionSummary.language := Some "en";
       createSectionSummary.summaryText := "A sailor's tale" |} in
  let w1 := snd (createSectionSummary.action again (signed_in U1)
                                             rt0 world0) in
  exists y,
    fst (createSectionSummary.action again (signed_in U1) rt0 world0)
    = inr (data_summary (Some y)) /\
    SectionSummaries.variant y = SectionSummaries.variant Y1 /\
    SectionSummaries.language y = SectionSummaries.language Y1 /\
    sectionSummaries (db w1) = [Y1; Y2; y] /\
    fst (listSectionSummaries.action (summaries_of_S1_under "B1")
                                     (signed_in U1) rt0 w1)
    = inr (data_summaries [Y1; Y2; y] 3).
Proof.
  edestruct (createSectionSummary_then_listSectionSummaries
               {| createSectionSummary.sectionId := "S1";
                  createSectionSummary.bookId := "B1";
                  createSectionSummary.variant := Some "short";
                  createSectionSummary.language := Some "en";
                  createSectionSummary.summaryText := "A sailor's tale" |}
               (signed_in U1) rt0 world0)
    as (y & D & Ey & _ & A & _ & _ & L).
  - reflexivity.
  - exists y. split; [exact (f_equal (@inr Failure Data) D) |].
    split; [now rewrite Ey |]. split; [now rewrite Ey |].
    split; [exact A | exact L].
Defined.

(** ** Partial update of a Section *)

(** X17: the requester owns the Book, the Section [s] is stored under
    it, the [updateBookSection] request passes the schema, and the client
    can hand back both the stored [orderIndex] and the supplied one.  The
    action succeeds; the Section it returns is [s] with each supplied
    field set to the supplied value and each omitted field as before;
    that Section is the one row stored under the id afterwards, every
    other Section is unchanged and so are the Books and the Summaries. *)
Theorem updateBookSection_changes_supplied_fields_only :
  forall i b s u ctx rt w,
    primary_keys_unique (db w) ->
    locals_user ctx = Some u ->
    In b (books (db w)) ->
    Books.id b = updateBookSection.bookId i ->
    Books.userId b = App.id u ->
    In s (bookSections (db w)) ->
    BookSections.id s = updateBookSection.id i ->
    BookSections.bookId s = updateBookSection.bookId i ->
    updateBookSection.schema i = true ->
    readable_section s = true ->
    (forall n, updateBookSection.orderIndex i = Some n ->
               converts n = true) ->
    exists s' w',
      updateBookSection.action i ctx rt w
      = (inr (data_section (Some s')), w') /\
      s' = {| BookSections.id := BookSections.id s;
              BookSections.bookId := BookSections.bookId s;
              BookSections.sectionType :=
                match updateBookSection.sectionType i with
                | Some v => Some v
                | None => BookSections.sectionType s
                end;
              BookSections.orderIndex :=
                match updateBookSection.orderIndex i with
                | Some v => Some v
                | None => BookSections.orderIndex s
                end;
              BookSections.title :=
                match updateBookSection.title i with
                | Some v => Some v
                | None => BookSections.title s
                end;
              BookSections.rawText :=
                match updateBookSection.rawText i with
                | Some v => v
                | None => BookSections.rawText s
                end;
              BookSections.createdAt := BookSections.createdAt s |} /\
      sections_with_id (db w') (BookSections.id s) = [s'] /\
      bookSections (db w')
      = map (fun r => if eq_ BookSections.id (BookSections.id s) r
                      then s' else r)
            (bookSections (db w)) /\
      books (db w') = books (db w) /\
      sectionSummaries (db w') = sectionSummaries (db w).
Proof.
  intros i b s u ctx rt w (_ & Ns & _) U Ib Bi Bu Is Si Sb V Rs Rn.
  destruct (owner_is_found (db w) u (updateBookSection.bookId i))
    as [b0 Fb].
  { exists b. repeat split; assumption. }
  assert (Own : filter (and_ (eq_ BookSections.id (updateBookSection.id i))
                             (eq_ BookSections.bookId
                                  (updateBookSection.bookId i)))
                       (bookSections (db w)) = [s]).
  { apply (filter_key_unique BookSections.id); try assumption.
    - apply and_holds. split; now apply eq_holds.
    - intros r P. apply and_holds in P. destruct P as [P _].
      apply eq_holds in P. congruence. }
  assert (Hit : filter (eq_ BookSections.id (updateBookSection.id i))
                       (bookSections (db w)) = [s]).
  { apply (filter_key_unique BookSections.id); try assumption.
    - now apply eq_holds.
    - intros r P. apply eq_holds in P. congruence. }
  assert (Rs' : readable_section (updateBookSection.set_ i s) = true).
  { unfold readable_section in *. simpl.
    destruct (updateBookSection.orderIndex i) as [n |]; simpl;
      [now apply Rn | exact Rs]. }
  eexists _, _. split; [| split; [reflexivity |]].
  - unfold updateBookSection.action, updateBookSection.handler.
    run_handler. rewrite V, U; simpl. tidy. rewrite Fb; simpl.
    rewrite Own; simpl. rewrite Rs; simpl. rewrite Hit; simpl.
    rewrite Rs'. reflexivity.
  - simpl. rewrite <- Si.
    rewrite (map_update_unique BookSections.id
               (updateBookSection.set_ i) _ s Ns Is).
    split; [| repeat split].
    unfold sections_with_id; simpl.
    apply (filter_key_unique BookSections.id).
    + rewrite map_map.
      erewrite map_ext; [exact Ns |].
      intros r; simpl.
      destruct (eq_ BookSections.id (BookSections.id s) r) eqn:E;
        [apply eq_holds in E; now rewrite E | reflexivity].
    + apply in_map_iff. exists s. split; [| exact Is].
      now rewrite eq_refl_holds.
    + now apply eq_holds.
    + intros r P. now apply eq_holds in P.
Qed.

Lemma updateBookSection_changes_supplied_fields_only_witness :
  exists w',
    updateBookSection.action rename_S1 (signed_in U1) rt0 world0
    = (inr (data_section (Some S1_renamed)), w') /\
    bookSections (db w') = [S1_renamed] /\
    books (db w') = [B1; B2] /\
    sectionSummaries (db w') = [Y1; Y2].
Proof.
  destruct (updateBookSection_changes_supplied_fields_only
              rename_S1 B1 S1 U1 (signed_in U1) rt0 world0)
    as (s' & w' & E & -> & _ & Rows & Bk & Sm);
    try reflexivity; try (left; reflexivity).
  - repeat split; repeat constructor; simpl; intuition discriminate.
  - intros n N. discriminate N.
  - exists w'. repeat split; assumption.
Defined.

(** ** Books over a session *)

Lemma server_keeps_timestamps_ordered rt req ctx w :
  (forall n, (clock rt n <= clock rt (S n))%Z) ->
  timestamps_ordered rt w ->
  timestamps_ordered rt (snd (server req ctx rt w)).
Proof.
  unfold timestamps_ordered. intros Mono J.
  destruct req as [i|i|i|i|i|i|i|i|i]; simpl; enter_action ctx rt w;
    try exact J;
    intros b I;
    try (destruct (J b I) as [A B]; split; [exact A |];
         first [exact B | now apply Z.le_trans with (1 := B)]).
  - (* createBook *)
    apply in_app_or in I. destruct I as [I | [<- | []]].
    + destruct (J b I) as [A B]. split; [exact A |].
      now apply Z.le_trans with (1 := B).
    + simpl. split; [apply Z.le_refl | apply Mono].
  - (* updateBook *)
    apply in_map_iff in I. destruct I as (x & <- & I).
    destruct (J x I) as [A B].
    destruct (eq_ Books.id (updateBook.id i) x); simpl.
    + split; [now apply Z.le_trans with (1 := A) | apply Mono].
    + split; [exact A | now apply Z.le_trans with (1 := B)].
Qed.

Lemma serve_keeps_timestamps_ordered rt calls :
  (forall n, (clock rt n <= clock rt (S n))%Z) ->
  forall w,
    timestamps_ordered rt w ->
    timestamps_ordered rt (snd (serve rt calls w)).
Proof.
  intros Mono.
  induction calls as [| [req ctx] rest IH]; simpl; intros w J; [exact J |].
  assert (J1 := server_keeps_timestamps_ordered rt req ctx w Mono J).
  destruct (server req ctx rt w) as [r w1]. simpl in J1.
  assert (J2 := IH w1 J1).
  destruct (serve rt rest w1) as [h w2]. exact J2.
Qed.

(** X18: when the clock never runs backwards, no session makes a Book
    look modified before it was created: from a world where every Book
    has [createdAt <= updatedAt <=] the next clock reading, every Book
    stored after the session has [createdAt <= updatedAt]. *)
Theorem updatedAt_never_precedes_createdAt :
  forall rt calls w,
    (forall n, (clock rt n <= clock rt (S n))%Z) ->
    timestamps_ordered rt w ->
    forall b, In b (books (db (snd (serve rt calls w)))) ->
              (Books.createdAt b <= Books.updatedAt b)%Z.
Proof.
  intros rt calls w Mono J b I.
  now apply (serve_keeps_timestamps_ordered rt calls Mono w J b).
Qed.

Lemma updatedAt_never_precedes_createdAt_witness :
  In (B1_annotated 1001) (books (db (snd (serve rt0 session boot)))) /\
  (Books.createdAt (B1_annotated 1001)
   <= Books.updatedAt (B1_annotated 1001))%Z.
Proof.
  assert (I : In (B1_annotated 1001)
                 (books (db (snd (serve rt0 session boot)))))
    by (left; reflexivity).
  split; [exact I |].
  apply (updatedAt_never_precedes_createdAt rt0 session boot).
  - intros n.
    change (1000 + Z.of_nat n <= 1000 + Z.of_nat (S n))%Z. lia.
  - intros b [].
  - exact I.
Defined.

Lemma books_persist_refl st : books_persist st st.
Proof. intros b I. exists b. repeat split. exact I. Qed.

Lemma books_persist_trans st1 st2 st3 :
  books_persist st1 st2 -> books_persist st2 st3 -> books_persist st1 st3.
Proof.
  intros P12 P23 b I.
  destruct (P12 b I) as (b2 & I2 & Ei & Eu & Ec).
  destruct (P23 b2 I2) as (b3 & I3 & Ei3 & Eu3 & Ec3).
  exists b3. repeat split; congruence.
Qed.

Lemma server_books_persist req ctx rt w :
  books_persist (db w) (db (snd (server req ctx rt w))).
Proof.
  destruct req as [i|i|i|i|i|i|i|i|i]; simpl; enter_action ctx rt w;
    intros b I;
    try (exists b; split; [exact I | split; [| split]; reflexivity]).
  - (* createBook *)
    exists b. repeat split. simpl. apply in_or_app. now left.
  - (* updateBook *)
    exists (if eq_ Books.id (updateBook.id i) b
            then updateBook.set_ i (clock rt (ticks w)) b else b).
    split.
    + simpl. apply in_map_iff. exists b. split; [reflexivity | exact I].
    + destruct (eq_ Books.id (updateBook.id i) b); repeat split.
Qed.

(** X19: Books are never removed and never change hands: every Book
    stored before a session is stored after it under the same [id], with
    the same [userId] and the same [createdAt], whatever the requests. *)
Theorem books_outlive_every_session :
  forall rt calls w,
    books_persist (db w) (db (snd (serve rt calls w))).
Proof.
  intros rt calls.
  induction calls as [| [req ctx] rest IH]; simpl; intros w;
    [apply books_persist_refl |].
  assert (P1 := server_books_persist req ctx rt w).
  destruct (server req ctx rt w) as [r w1]. simpl in P1.
  assert (P2 := IH w1).
  destruct (serve rt rest w1) as [h w2]. simpl in *.
  now apply books_persist_trans with (st2 := db w1).
Qed.

(** ** What the store refuses and what the client cannot hand back *)

Lemma existsb_filter_nil {R} (p : R -> bool) l :
  existsb p l = false <-> filter p l = [].
Proof.
  induction l as [| x l IH]; simpl; [tauto |].
  destruct (p x); simpl; [split; discriminate | exact IH].
Qed.

Lemma filter_keeps_all {R} (p : R -> bool) l :
  filter p l = [] -> filter (fun r => negb (p r)) l = l.
Proof.
  induction l as [| x l IH]; simpl; [reflexivity |].
  destruct (p x); simpl; [discriminate |].
  intros E. now rewrite IH.
Qed.

Lemma owner_is_stored st u bookId :
  owns_book st u bookId -> existsb (eq_ Books.id bookId) (books st) = true.
Proof.
  intros (b & I & Ei & _). apply existsb_exists. exists b.
  split; [exact I | now apply eq_holds].
Qed.

(** X20: [deleteBookSection] on an owned Section that the client can hand
    back, in a store with unique primary keys.  When no Summary refers to
    the Section the action succeeds and removes exactly that Section,
    leaving the Books and the Summaries as they were.  When a Summary
    still refers to it, the delete of the Section is refused, the action
    fails and no table has changed: the Summaries are deleted only after
    the Section, so a Section with Summaries cannot be deleted. *)
Theorem deleteBookSection_needs_no_summary_left :
  forall i b s u ctx rt w,
    primary_keys_unique (db w) ->
    locals_user ctx = Some u ->
    In b (books (db w)) ->
    Books.id b = deleteBookSection.bookId i ->
    Books.userId b = App.id u ->
    In s (bookSections (db w)) ->
    BookSections.id s = deleteBookSection.id i ->
    BookSections.bookId s = deleteBookSection.bookId i ->
    deleteBookSection.schema i = true ->
    readable_section s = true ->
    (summaries_of (db w) (deleteBookSection.id i) = [] ->
     exists w',
       deleteBookSection.action i ctx rt w = (inr no_data, w') /\
       sections_with_id (db w') (deleteBookSection.id i) = [] /\
       (forall r, In r (bookSections (db w')) <->
                  In r (bookSections (db w)) /\ r <> s) /\
       books (db w') = books (db w) /\
       sectionSummaries (db w') = sectionSummaries (db w)) /\
    (summaries_of (db w) (deleteBookSection.id i) <> [] ->
     exists w',
       deleteBookSection.action i ctx rt w = (inl CONSTRAINT, w') /\
       db w' = db w).
Proof.
  intros i b s u ctx rt w (_ & Ns & _) U Ib Bi Bu Is Si Sb V Rs.
  destruct (owner_is_found (db w) u (deleteBookSection.bookId i))
    as [b0 Fb].
  { exists b. repeat split; assumption. }
  assert (Own : filter (and_ (eq_ BookSections.id (deleteBookSection.id i))
                             (eq_ BookSections.bookId
                                  (deleteBookSection.bookId i)))
                       (bookSections (db w)) = [s]).
  { apply (filter_key_unique BookSections.id); try assumption.
    - apply and_holds. split; now apply eq_holds.
    - intros r P. apply and_holds in P. destruct P as [P _].
      apply eq_holds in P. congruence. }
  assert (Same : forall r, In r (bookSections (db w)) ->
                           BookSections.id r = deleteBookSection.id i ->
                           r = s).
  { intros r Ir Er.
    apply (NoDup_map_inj BookSections.id _ r s Ns Ir Is). congruence. }
  unfold summaries_of. split.
  - intros None.
    assert (Free : existsb
                     (fun r =>
                        existsb (eq_ SectionSummaries.sectionId
                                     (BookSections.id r))
                                (sectionSummaries (db w))
                        && eq_ BookSections.id (deleteBookSection.id i) r)
                     (bookSections (db w)) = false).
    { apply not_true_is_false. intros X. apply existsb_exists in X.
      destruct X as (r & Ir & P). apply andb_true_iff in P.
      destruct P as [Pr Pi]. apply eq_holds in Pi.
      rewrite Pi in Pr. apply existsb_filter_nil in None. congruence. }
    eexists. split; [| split; [| split; [| split]]].
    + unfold deleteBookSection.action, deleteBookSection.handler.
      run_handler. rewrite V, U; simpl. tidy. rewrite Fb; simpl.
      rewrite Own; simpl. rewrite Rs; simpl. rewrite Free; simpl. tidy.
      reflexivity.
    + simpl. unfold sections_with_id; simpl. apply filter_negb_filter.
    + simpl. intros r. rewrite filter_In, eq_fails. split.
      * intros [Ir D]. split; [exact Ir |]. intros ->. now apply D.
      * intros [Ir D]. split; [exact Ir |]. intros E. apply D.
        now apply Same.
    + reflexivity.
    + simpl. now apply filter_keeps_all.
  - intros Some.
    assert (Held : existsb
                     (fun r =>
                        existsb (eq_ SectionSummaries.sectionId
                                     (BookSections.id r))
                                (sectionSummaries (db w))
                        && eq_ BookSections.id (deleteBookSection.id i) r)
                     (bookSections (db w)) = true).
    { apply existsb_exists. exists s. split; [exact Is |].
      apply andb_true_iff. split; [| now apply eq_holds].
      rewrite Si. apply not_false_is_true. intros X.
      apply existsb_filter_nil in X. contradiction. }
    eexists. split.
    + unfold deleteBookSection.action, deleteBookSection.handler.
      run_handler. rewrite V, U; simpl. tidy. rewrite Fb; simpl.
      rewrite Own; simpl. rewrite Rs; simpl. rewrite Held; simpl.
      reflexivity.
    + reflexivity.
Qed.

Lemma deleteBookSection_needs_no_summary_left_witness :
  (exists w',
      deleteBookSection.action drop_S1 (signed_in U1) rt0 world_no_summaries
      = (inr no_data, w') /\
      bookSections (db w') = []) /\
  (exists w',
      deleteBookSection.action drop_S1 (signed_in U1) rt0 world0
      = (inl CONSTRAINT, w') /\
      db w' = db world0).
Proof.
  split.
  - destruct (deleteBookSection_needs_no_summary_left
                drop_S1 B1 S1 U1 (signed_in U1) rt0 world_no_summaries)
      as [Free _]; try reflexivity; try (left; reflexivity).
    + repeat split; repeat constructor; simpl; intuition discriminate.
    + destruct (Free eq_refl) as (w' & E & _ & Rows & _).
      exists w'. split; [exact E |].
      destruct (bookSections (db w')) as [| r rest]; [reflexivity |].
      exfalso. destruct (Rows r) as [Back _].
      destruct Back as [[<- | []] D]; [now left | now apply D].
  - destruct (deleteBookSection_needs_no_summary_left
                drop_S1 B1 S1 U1 (signed_in U1) rt0 world0)
      as [_ Held]; try reflexivity; try (left; reflexivity).
    + repeat split; repeat constructor; simpl; intuition discriminate.
    + apply Held. discriminate.
Defined.

(** X21: [createBookSection] with an [orderIndex] the client cannot hand
    back ([2^53 <= |n| < 2^63]; the schema accepts every integer): for a
    signed-in owner of the Book and a fresh identifier the Section is
    inserted, with that [orderIndex], and then the action fails while
    reading the inserted row back.  The failed request has changed the
    store. *)
Theorem createBookSection_stores_then_fails_on_unsafe_orderIndex :
  forall i n u ctx rt w,
    locals_user ctx = Some u ->
    createBookSection.schema i = true ->
    owns_book (db w) u (createBookSection.bookId i) ->
    ~ In (randomUUID rt (draws w))
         (map BookSections.id (bookSections (db w))) ->
    createBookSection.orderIndex i = Some n ->
    converts n = false ->
    exists s w',
      createBookSection.action i ctx rt w = (inl CONSTRAINT, w') /\
      s = {| BookSections.id := randomUUID rt (draws w);
             BookSections.bookId := createBookSection.bookId i;
             BookSections.sectionType := createBookSection.sectionType i;
             BookSections.orderIndex := Some n;
             BookSections.title := createBookSection.title i;
             BookSections.rawText := createBookSection.rawText i;
             BookSections.createdAt := clock rt (ticks w) |} /\
      bookSections (db w') = bookSections (db w) ++ [s] /\
      books (db w') = books (db w) /\
      sectionSummaries (db w') = sectionSummaries (db w).
Proof.
  intros i n u ctx rt w U V O Fresh On Unsafe.
  destruct (owner_is_found _ _ _ O) as [b Fb].
  apply owner_is_stored in O. apply existsb_eq_iff in Fresh.
  eexists _, _. split; [| split; [reflexivity |]].
  - unfold createBookSection.action, createBookSection.handler.
    run_handler. rewrite V, U; simpl. tidy. rewrite Fb; simpl.
    rewrite Fresh, O; simpl. tidy.
    unfold readable_section, createBookSection.orderIndex_or_1; simpl.
    rewrite On, Unsafe. reflexivity.
  - repeat split.
Qed.

Lemma createBookSection_stores_then_fails_on_unsafe_orderIndex_witness :
  converts 9007199254740992 = false /\
  converts 9007199254740991 = true /\
  converts 9223372036854775808 = true /\
  exists s w',
    createBookSection.action add_chapter_unsafe (signed_in U1) rt0 world0
    = (inl CONSTRAINT, w') /\
    BookSections.orderIndex s = Some 9007199254740992%Z /\
    bookSections (db w') = [S1; s].
Proof.
  split; [reflexivity |]. split; [reflexivity |]. split; [reflexivity |].
  destruct (createBookSection_stores_then_fails_on_unsafe_orderIndex
              add_chapter_unsafe 9007199254740992%Z U1 (signed_in U1)
              rt0 world0)
    as (s & w' & E & -> & Rows & _); try reflexivity.
  - exists B1. split; [left; reflexivity | split; reflexivity].
  - simpl. intros [X | []]. discriminate X.
  - eexists _, w'. split; [exact E |]. split; [| exact Rows].
    reflexivity.
Defined.

(** X22: one Section that the client cannot hand back breaks the listing
    of its Book: when such a Section is stored under the Book, the
    owner's [listBookSections] fails, for every Section of the Book; it
    only reads. *)
Theorem listBookSections_fails_on_an_unreadable_section :
  forall i u x ctx rt w,
    locals_user ctx = Some u ->
    listBookSections.schema i = true ->
    owns_book (db w) u (listBookSections.bookId i) ->
    In x (bookSections (db w)) ->
    BookSections.bookId x = listBookSections.bookId i ->
    readable_section x = false ->
    exists w',
      listBookSections.action i ctx rt w = (inl CONSTRAINT, w') /\
      only_reads w w'.
Proof.
  intros i u x ctx rt w U V O Ix Bx Rx.
  destruct (owner_is_found _ _ _ O) as [b Fb].
  assert (Bad : forallb readable_section
                  (filter (eq_ BookSections.bookId
                               (listBookSections.bookId i))
                          (bookSections (db w))) = false).
  { apply not_true_is_false. intros A.
    rewrite forallb_forall in A.
    rewrite (A x) in Rx; [discriminate |].
    apply filter_In. split; [exact Ix | now apply eq_holds]. }
  eexists. split.
  - unfold listBookSections.action, listBookSections.handler. run_handler.
    rewrite V, U; simpl. tidy. rewrite Fb; simpl. rewrite Bad.
    reflexivity.
  - apply (only_reads_select2 TBooks TBookSections w).
Qed.

Lemma listBookSections_fails_on_an_unreadable_section_witness :
  let w1 := snd (createBookSection.action add_chapter_unsafe (signed_in U1)
                                          rt0 world0) in
  fst (listBookSections.action {| listBookSections.bookId := "B1" |}
                               (signed_in U1) rt0 world0)
  = inr (data_sections [S1] 1) /\
  exists w2,
    listBookSections.action {| listBookSections.bookId := "B1" |}
                            (signed_in U1) rt0 w1
    = (inl CONSTRAINT, w2).
Proof.
  split; [reflexivity |].
  destruct (listBookSections_fails_on_an_unreadable_section
              {| listBookSections.bookId := "B1" |} U1
              {| BookSections.id := "N5"; BookSections.bookId := "B1";
                 BookSections.sectionType := Some "chapter";
                 BookSections.orderIndex := Some 9007199254740992%Z;
                 BookSections.title := Some "The Carpet-Bag";
                 BookSections.rawText := "I stuffed a shirt or two";
                 BookSections.createdAt := 1005 |}
              (signed_in U1) rt0
              (snd (createBookSection.action add_chapter_unsafe
                                             (signed_in U1) rt0 world0)))
    as (w2 & E & _); try reflexivity.
  - exists B1. split; [left; reflexivity | split; reflexivity].
  - right. left. reflexivity.
  - exists w2. exact E.
Defined.
